(** * Farminfo Analytics dashboard: filtering and aggregation pipeline

    A shallow embedding of [dashboard-1.py].  The script is a straight-line
    Streamlit program: it loads a table of orders, narrows it with four
    filters, and derives KPIs, ranking tables and the monthly seller churn.

    Modelling conventions.
    - A dataframe is a list of column labels and a list of rows; a row is a
      record with one field per column the script reads.
    - Money and quantities are whole numbers ([Z], won), held as pandas
      holds the columns of a file of plain integers: dtype int64, whose sums
      wrap around.  (Line 117 turns a column written with thousands
      separators into float64; on whole numbers the two agree as long as
      no sum leaves the range in which float64 is exact, which is the
      hypothesis [exact_sums] of the statements on sums.)  The quotients of
      the KPIs are rationals; the share of a product is a float64.
    - The columns the specification lists as required carry a value in every
      row; a missing cell (pandas [NaN]) is modelled for the optional
      columns, as [None].
    - A text is a [string], the bytes of its UTF-8 encoding.
    - The regular-expression engine behind [str.contains], the sorting
      routine behind [sort_values] and what the script finds on its host
      (secrets, environment, data file, date) are parameters.
    - [st.stop()], an uncaught exception and the notices written with
      [st.error], [st.warning], [st.success], [st.info] are the effects of
      the script; they are threaded through the [Script] monad below. *)

From Stdlib Require Import ZArith QArith Ascii String List Sorting.Sorted Lia.
From Stdlib Require Import Floats.PrimFloat Floats.SpecFloat Floats.FloatOps.
From stdpp Require Import base decidable option list sorting strings gmap.

Local Open Scope Z_scope.

(** ** Dates and periods *)

(** [datetime.date]: ordered as the tuple (year, month, day). *)
Record Date := mkDate { year : Z; month : Z; day : Z }.

(** [pd.Timestamp]: a calendar date and the time of day in seconds. *)
Record Timestamp := mkTimestamp { ts_date : Date; ts_time : Z }.

(** [pd.Period] of frequency ['M']. *)
Record Period := mkPeriod { p_year : Z; p_month : Z }.

#[global] Instance Date_eq_dec : EqDecision Date.
Proof. solve_decision. Defined.
#[global] Instance Timestamp_eq_dec : EqDecision Timestamp.
Proof. solve_decision. Defined.
#[global] Instance Period_eq_dec : EqDecision Period.
Proof. solve_decision. Defined.

(** [a <= b] on [datetime.date]. *)
Definition date_leb (a b : Date) : bool :=
  if year a <? year b then true
  else if year b <? year a then false
  else if month a <? month b then true
  else if month b <? month a then false
  else day a <=? day b.

(** [Series.dt.to_period('M')] on one timestamp. *)
Definition to_period_M (t : Timestamp) : Period :=
  {| p_year := year (ts_date t); p_month := month (ts_date t) |}.

(** [a <= b] on monthly periods: chronological order. *)
Definition period_leb (a b : Period) : bool :=
  if p_year a <? p_year b then true
  else if p_year b <? p_year a then false
  else p_month a <=? p_month b.

(** ** The table *)

(** Column labels of [preprocessed_data.csv] that the script reads. *)
Inductive Column :=
  | OrderDate        (* 주문일 *)
  | Channel          (* 주문경로 *)
  | PaidAmount       (* 실결제 금액 *)
  | Quantity         (* 주문수량 *)
  | ProductName      (* 상품명 *)
  | OptionCode       (* 옵션코드 *)
  | Address          (* 주소 *)
  | Purpose          (* 목적 *)
  | SelectedOption   (* 고객선택옵션 *)
  | EventFlag        (* 이벤트 여부 *)
  | Margin           (* 마진 *)
  | Region           (* 광역지역 *)
  | UID              (* UID *)
  | OrderNo          (* 주문번호 *)
  | SellerName.      (* 셀러명 *)

#[global] Instance Column_eq_dec : EqDecision Column.
Proof. solve_decision. Defined.

(** A cell of an optional text column; [None] is a missing value. *)
Definition cell := option string.

(** [Series.astype(str)] on one cell: a missing value prints as ["nan"]. *)
Definition astype_str (c : cell) : string :=
  match c with Some s => s | None => "nan"%string end.

Record Row := mkRow {
  order_date : Timestamp;     (* 주문일 *)
  channel : string;           (* 주문경로 *)
  paid : Z;                   (* 실결제 금액 *)
  quantity : Z;               (* 주문수량 *)
  product : string;           (* 상품명 *)
  option_code : cell;         (* 옵션코드 *)
  address : cell;             (* 주소 *)
  purpose : cell;             (* 목적 *)
  selected_option : cell;     (* 고객선택옵션 *)
  event_flag : cell;          (* 이벤트 여부 *)
  margin : Z;                 (* 마진 *)
  region : cell;              (* 광역지역 *)
  uid : string;               (* UID *)
  order_no : cell;            (* 주문번호 *)
  seller : cell               (* 셀러명 *)
}.

(** A dataframe.  The field of a row for a column that is not among
    [columns] is never read. *)
Record DataFrame := mkDF { columns : list Column; rows : list Row }.

(** [c in df.columns] *)
Definition has_col (df : DataFrame) (c : Column) : bool :=
  bool_decide (c ∈ columns df).

(** [df.empty]: some axis has length zero. *)
Definition df_empty (df : DataFrame) : bool :=
  match columns df, rows df with
  | [], _ | _, [] => true
  | _, _ => false
  end.

(** [df[mask]] with the mask computed row by row. *)
Definition select (p : Row → bool) (df : DataFrame) : DataFrame :=
  {| columns := columns df; rows := List.filter p (rows df) |}.

(** ** Effects of the script *)

Inductive Exn :=
  | KeyError (c : Column)     (* a column that is not in the frame *)
  | ReError (msg : string)    (* re.error *)
  | SecretNotFoundError       (* StreamlitSecretNotFoundError: no secrets file *)
  | SecretKeyError (key : string)  (* KeyError on a key of the secrets section *)
  | KeyErrorNewSellers        (* KeyError on the column '신규 유입' of analysis_df *)
  | KeyErrorChurned           (* KeyError on the column '이탈' of analysis_df *)
  | PlotlyValueError.         (* plotly express: a column name not in the frame *)

Inductive Notice :=
  | ErrDataFileNotFound                       (* st.error, in load_data *)
  | WarnNoResults (prompt : string)           (* st.warning, keyword filter *)
  | SuccessFound (prompt : string) (n : nat)  (* st.success, keyword filter *)
  | WarnNoSellerColumn                        (* st.warning, seller tab *)
  | InfoUpdated (today : Date)                (* st.info, sidebar *)
  | SuccessApiKeyLoaded                       (* st.success, sidebar *)
  | WarnApiKeyNotFound.                       (* st.warning, sidebar *)

(** The rows of the three tables of section 6. *)
Record ProdRank := mkProdRank {
  pr_product : string;     (* 상품명 *)
  pr_quantity : Z;         (* 총주문수 *)
  pr_revenue : Z;          (* 총매출 *)
  pr_share : float         (* 매출비중, before it is printed with one decimal *)
}.

Record RegionStat := mkRegionStat {
  rg_region : string;      (* 광역지역 *)
  rg_orders : Z;           (* 주문건수 *)
  rg_revenue : Z           (* 총매출 *)
}.

Record Vip := mkVip {
  vip_uid : string;        (* UID *)
  vip_orders : Z;          (* 구매횟수 *)
  vip_paid : Z             (* 총결제금액 *)
}.

#[global] Instance Vip_eq_dec : EqDecision Vip.
Proof. solve_decision. Defined.

(** What the script shows: notices, metrics and tables.  The plotly
    charts belong to the presentation layer and are left out, and so are
    titles, dividers and the debug listing that [load_data] writes with
    [st.write] under its error. *)
Inductive Output :=
  | ONotice (n : Notice)
  | OMetrics (sales orders : Z) (aov avg_mgn : option Q)
  | OProdRank (t : list ProdRank)
  | ORegion (t : list RegionStat)
  | OVip (t : list Vip)
  | ORows (df : DataFrame)
  | OSellerMetrics (total_sellers current_active : nat).

(** How a run of (a part of) the script ends. *)
Inductive Res (A : Type) :=
  | Done (a : A)     (* ran to its end *)
  | Stop             (* st.stop() *)
  | Raise (e : Exn)  (* uncaught exception *)
  | Unmodelled.      (* behaviour outside the modelled fragment of [re] *)
Arguments Done {A} a.
Arguments Stop {A}.
Arguments Raise {A} e.
Arguments Unmodelled {A}.

(** What has been shown so far, and the outcome. *)
Definition Script (A : Type) : Type := list Output * Res A.

Definition show (o : Output) : Script unit := ([o], Done tt).
Definition notify (n : Notice) : Script unit := show (ONotice n).
Definition st_stop {A} : Script A := ([], Stop).
Definition raise {A} (e : Exn) : Script A := ([], Raise e).

#[global] Instance Script_ret : MRet Script := fun A a => ([], Done a).
#[global] Instance Script_bind : MBind Script := fun A B k m =>
  match m with
  | (log, Done a) => let '(log', r) := k a in (log ++ log', r)
  | (log, Stop) => (log, Stop)
  | (log, Raise e) => (log, Raise e)
  | (log, Unmodelled) => (log, Unmodelled)
  end.

(** [df[c]]: raises [KeyError] when the column is absent. *)
Definition require_col (df : DataFrame) (c : Column) : Script unit :=
  if has_col df c then mret tt else raise (KeyError c).

(** ** Section 2 of the script: loading *)

(** [load_data()], lines 58-123.  The argument is the table read from the
    first candidate path that exists, with its dates and numbers converted
    and the margin column derived; it is [None] when no candidate exists.
    A file that [pd.read_csv] or one of the conversions rejects is not
    represented. *)
Definition load_data (file : option DataFrame) : Script DataFrame :=
  match file with
  | None => notify ErrDataFileNotFound;; mret {| columns := []; rows := [] |}
  | Some df => mret df
  end.

(** ** Section 4 of the script: the filters *)

(** Filter 1, lines 179-184.  [date_range] is the tuple returned by
    [st.date_input]. *)
Definition date_filter (date_range : list Date) (df : DataFrame) : DataFrame :=
  match date_range with
  | [start_date; end_date] =>
      select (fun r => date_leb start_date (ts_date (order_date r))
                       && date_leb (ts_date (order_date r)) end_date) df
  | _ => df
  end.

(** [Series.isin(values)] on one cell. *)
Definition isin (values : list string) (x : string) : bool :=
  existsb (String.eqb x) values.

(** Filter 2, lines 187-188.  An empty list is falsy. *)
Definition channel_filter (selected_channels : list string) (df : DataFrame)
  : DataFrame :=
  match selected_channels with
  | [] => df
  | _ :: _ => select (fun r => isin selected_channels (channel r)) df
  end.

(** Filter 3, lines 191-192. *)
Definition event_filter (show_event_only : bool) (df : DataFrame) : DataFrame :=
  if show_event_only && has_col df EventFlag
  then select (fun r => bool_decide (event_flag r = Some "Y"%string)) df
  else df.

(** ** The modelled fragment of Python's [re]

    [Series.str.contains(pat, case=False)] compiles [pat] with
    [re.compile(pat, re.IGNORECASE)] and keeps the cells in which
    [regex.search] finds a match.  This module describes [re] on bytes: it
    is [re] on texts of ASCII characters, and for a keyword without special
    characters also on the texts that [plain_text] admits below.  The
    parser follows [sre_parse._parse] on literals,
    [.], [|], groups, the repeats [*], [+], [?] (greedy and lazy) and
    escaped punctuation; it reports the errors [re] raises there, and
    answers [Unsupported] at the first construct outside this fragment
    (character sets, counted repeats, anchors, [(?...)] extensions, letter
    and digit escapes, possessive repeats).  The tokenizer of [re] reads
    one token ahead: a backslash that ends the pattern is reported when the
    token before it is taken, before that token is looked at. *)
Module Re.

Inductive regex :=
  | Void                     (* matches nothing; only derivatives use it *)
  | Eps                      (* the empty sequence *)
  | Chr (c : ascii)          (* LITERAL, compared ignoring case *)
  | Any                      (* ANY: every character but a newline *)
  | Cat (r1 r2 : regex)
  | Alt (r1 r2 : regex)      (* BRANCH *)
  | Star (r : regex).        (* MAX_REPEAT / MIN_REPEAT 0.. *)

Inductive compiled :=
  | Pattern (r : regex)
  | Invalid (msg : string)   (* re.error *)
  | Unsupported.

(** ASCII lower-casing, the case folding of [re.IGNORECASE] on ASCII. *)
Definition lower (c : ascii) : ascii :=
  let n := N_of_ascii c in
  if ((65 <=? n) && (n <=? 90))%N then ascii_of_N (n + 32) else c.

Definition newline : ascii := ascii_of_N 10.

Definition is_alnum (c : ascii) : bool :=
  let n := N_of_ascii c in
  (((48 <=? n) && (n <=? 57)) || ((65 <=? n) && (n <=? 90))
   || ((97 <=? n) && (n <=? 122)))%N.

(** [SPECIAL_CHARS] of [sre_parse]. *)
Definition SPECIAL_CHARS : list ascii :=
  list_ascii_of_string ".\[{()*+?^$|".

Definition is_special (c : ascii) : bool :=
  existsb (Ascii.eqb c) SPECIAL_CHARS.

(** One nesting level of the parser: the branches closed by [|] so far
    and the items of the branch being read, both latest first.  The flag
    of an item tells whether it is a repeat. *)
Record frame := mkFrame { alts : list regex; items : list (regex * bool) }.

Definition empty_frame : frame := {| alts := []; items := [] |}.

Definition seq_regex (its : list (regex * bool)) : regex :=
  fold_left (fun acc it => Cat (fst it) acc) its Eps.

Definition close (f : frame) : regex :=
  fold_left (fun acc b => Alt b acc) (alts f) (seq_regex (items f)).

Definition push_item (r : regex) (f : frame) : frame :=
  {| alts := alts f; items := (r, false) :: items f |}.

Definition new_branch (f : frame) : frame :=
  {| alts := seq_regex (items f) :: alts f; items := [] |}.

(** The repeat operators: [*], [+], [?]. *)
Definition repeat_of (op : ascii) (r : regex) : regex :=
  if Ascii.eqb op "*" then Star r
  else if Ascii.eqb op "+" then Cat r (Star r)
  else Alt r Eps.

(** What is left of the pattern is a single backslash. *)
Definition lone_backslash (rest : list ascii) : bool :=
  match rest with
  | [c] => Ascii.eqb c "\"
  | _ => false
  end.

Definition is_nil {A} (l : list A) : bool :=
  match l with [] => true | _ :: _ => false end.

Fixpoint parse (input : list ascii) (cur : frame) (stack : list frame)
  : compiled :=
  match input with
  | [] =>
      match stack with
      | [] => Pattern (close cur)
      | _ :: _ => Invalid "missing ), unterminated subpattern"
      end
  | c :: rest =>
      (* a closing bracket at the top level is not taken from the source *)
      if Ascii.eqb c ")" && is_nil stack then Invalid "unbalanced parenthesis"
      else if Ascii.eqb c "\" then
        match rest with
        | [] => Invalid "bad escape (end of pattern)"
        | e :: rest' =>
            if lone_backslash rest' then Invalid "bad escape (end of pattern)"
            else if is_alnum e then Unsupported
            else parse rest' (push_item (Chr e) cur) stack
        end
      else if lone_backslash rest then Invalid "bad escape (end of pattern)"
      else if negb (is_special c) then parse rest (push_item (Chr c) cur) stack
      else if Ascii.eqb c "." then parse rest (push_item Any cur) stack
      else if Ascii.eqb c "|" then parse rest (new_branch cur) stack
      else if Ascii.eqb c "(" then
        match rest with
        | e :: _ =>
            if Ascii.eqb e "?" then Unsupported
            else parse rest empty_frame (cur :: stack)
        | [] => parse rest empty_frame (cur :: stack)
        end
      else if Ascii.eqb c ")" then
        match stack with
        | [] => Invalid "unbalanced parenthesis"
        | f :: stack' => parse rest (push_item (close cur) f) stack'
        end
      else if Ascii.eqb c "*" || Ascii.eqb c "+" || Ascii.eqb c "?" then
        match items cur with
        | [] => Invalid "nothing to repeat"
        | (_, true) :: _ => Invalid "multiple repeat"
        | (r, false) :: its =>
            let cur' := {| alts := alts cur;
                           items := (repeat_of c r, true) :: its |} in
            match rest with
            | e :: rest' =>
                if Ascii.eqb e "?" then parse rest' cur' stack
                else if Ascii.eqb e "+" then Unsupported
                else parse rest cur' stack
            | [] => parse rest cur' stack
            end
        end
      else Unsupported
  end.

(** [re.compile(pat, re.IGNORECASE)] *)
Definition compile (pat : string) : compiled :=
  parse (list_ascii_of_string pat) empty_frame [].

Fixpoint nullable (r : regex) : bool :=
  match r with
  | Void | Chr _ | Any => false
  | Eps | Star _ => true
  | Cat r1 r2 => nullable r1 && nullable r2
  | Alt r1 r2 => nullable r1 || nullable r2
  end.

(** Brzozowski derivative: what [r] may still match after reading [d]. *)
Fixpoint deriv (d : ascii) (r : regex) : regex :=
  match r with
  | Void | Eps => Void
  | Chr c => if Ascii.eqb (lower c) (lower d) then Eps else Void
  | Any => if Ascii.eqb d newline then Void else Eps
  | Cat r1 r2 =>
      if nullable r1 then Alt (Cat (deriv d r1) r2) (deriv d r2)
      else Cat (deriv d r1) r2
  | Alt r1 r2 => Alt (deriv d r1) (deriv d r2)
  | Star r1 => Cat (deriv d r1) (Star r1)
  end.

(** [regex.match(s) is not None]: some prefix of [s] matches. *)
Fixpoint match_prefix (r : regex) (s : list ascii) : bool :=
  nullable r ||
  match s with
  | [] => false
  | d :: s' => match_prefix (deriv d r) s'
  end.

(** [regex.search(s) is not None]: a match starts at some position. *)
Fixpoint search (r : regex) (s : list ascii) : bool :=
  match_prefix r s ||
  match s with
  | [] => false
  | _ :: s' => search r s'
  end.

(** The pattern of a keyword read letter by letter. *)
Definition literal (kw : list ascii) : regex :=
  foldr (fun c acc => Cat (Chr c) acc) Eps kw.

(** The words a pattern matches, as [re] documents them. *)
Inductive Matches : regex → list ascii → Prop :=
  | MEps : Matches Eps []
  | MChr c d : lower c = lower d → Matches (Chr c) [d]
  | MAny d : d ≠ newline → Matches Any [d]
  | MCat r1 r2 w1 w2 :
      Matches r1 w1 → Matches r2 w2 → Matches (Cat r1 r2) (w1 ++ w2)
  | MAltL r1 r2 w : Matches r1 w → Matches (Alt r1 r2) w
  | MAltR r1 r2 w : Matches r2 w → Matches (Alt r1 r2) w
  | MStar0 r : Matches (Star r) []
  | MStarS r w1 w2 :
      Matches r w1 → Matches (Star r) w2 → Matches (Star r) (w1 ++ w2).

(** [w] occurs in [s] as a contiguous piece. *)
Definition occurs_in (w s : list ascii) : Prop :=
  ∃ pre suf, s = pre ++ w ++ suf.

End Re.

(** ** The engine behind [str.contains]

    [Series.str.contains(pat, case=False)] compiles [pat] once, case
    ignored, and then searches every cell.  The engine (Python's [re]) is
    not part of the script: the script is modelled for any engine.  The
    third answer of [compile] is for a description of an engine that does
    not cover every pattern, as [Re] above; an engine itself never gives
    it. *)

Inductive Compiled (P : Type) :=
  | Compiles (p : P)          (* a compiled pattern *)
  | Fails (msg : string)      (* re.error *)
  | NotModelled.
Arguments Compiles {P} p.
Arguments Fails {P} msg.
Arguments NotModelled {P}.

Record Engine := mkEngine {
  re_pattern : Type;
  re_compile : string → Compiled re_pattern;   (* re.compile(pat, re.IGNORECASE) *)
  re_search : re_pattern → string → bool       (* regex.search(text) is not None *)
}.

(** [Re] as an engine. *)
Definition Re_engine : Engine :=
  {| re_pattern := Re.regex;
     re_compile := fun pat =>
       match Re.compile pat with
       | Re.Pattern r => Compiles r
       | Re.Invalid msg => Fails msg
       | Re.Unsupported => NotModelled
       end;
     re_search := fun r text => Re.search r (list_ascii_of_string text) |}.

(** ** Filter 4: the keyword filter, lines 195-212 *)

(** [search_cols], each with the text its cells have after
    [astype(str)]. *)
Definition search_cols : list (Column * (Row → string)) :=
  [ (ProductName, product);
    (OptionCode, fun r => astype_str (option_code r));
    (Address, fun r => astype_str (address r));
    (Channel, channel);
    (Purpose, fun r => astype_str (purpose r));
    (SelectedOption, fun r => astype_str (selected_option r)) ].

(** [valid_cols = [c for c in search_cols if c in df_filtered.columns]] *)
Definition valid_cols (df : DataFrame) : list (Column * (Row → string)) :=
  List.filter (fun c => has_col df (fst c)) search_cols.

(** [series.str.contains(pat, case=False)]: the pattern is compiled
    before any cell is looked at. *)
Definition str_contains (pat : string) (series : list string)
  : Script (list bool) :=
  match Re.compile pat with
  | Re.Pattern r =>
      mret (map (fun x => Re.search r (list_ascii_of_string x)) series)
  | Re.Invalid msg => raise (ReError msg)
  | Re.Unsupported => ([], Unmodelled)
  end.

(** The loop of lines 203-204: [mask |= ...] for each valid column. *)
Fixpoint mask_loop (prompt : string) (df : DataFrame)
    (cols : list (Column * (Row → string))) (mask : list bool)
  : Script (list bool) :=
  match cols with
  | [] => mret mask
  | col :: cols' =>
      m ← str_contains prompt (map (snd col) (rows df));
      mask_loop prompt df cols' (zip_with orb mask m)
  end.

(** The value of the final mask on one row, for a compiled pattern. *)
Definition row_matches (r : Re.regex) (cols : list (Column * (Row → string)))
    (row : Row) : bool :=
  existsb (fun col => Re.search r (list_ascii_of_string (snd col row))) cols.

(** [df[mask]] for a boolean series aligned with the rows. *)
Definition boolean_index (df : DataFrame) (mask : list bool) : DataFrame :=
  {| columns := columns df;
     rows := map fst (List.filter snd (zip (rows df) mask)) |}.

(** [bool(prompt)]: a string is truthy when it is not empty. *)
Definition truthy (s : string) : bool :=
  match s with EmptyString => false | String _ _ => true end.

Definition keyword_filter (prompt : string) (df : DataFrame)
  : Script DataFrame :=
  if truthy prompt then
    mask ← mask_loop prompt df (valid_cols df)
                     (replicate (length (rows df)) false);
    let df_filtered := boolean_index df mask in
    if df_empty df_filtered
    then notify (WarnNoResults prompt);; st_stop
    else notify (SuccessFound prompt (length (rows df_filtered)));;
         mret df_filtered
  else mret df.

(** The same filter for any engine. *)
Section KeywordFilter.

Variable E : Engine.

Definition str_contains_with (pat : string) (series : list string)
  : Script (list bool) :=
  match re_compile E pat with
  | Compiles regex => mret (map (re_search E regex) series)
  | Fails msg => raise (ReError msg)
  | NotModelled => ([], Unmodelled)
  end.

Fixpoint mask_loop_with (prompt : string) (df : DataFrame)
    (cols : list (Column * (Row → string))) (mask : list bool)
  : Script (list bool) :=
  match cols with
  | [] => mret mask
  | col :: cols' =>
      m ← str_contains_with prompt (map (snd col) (rows df));
      mask_loop_with prompt df cols' (zip_with orb mask m)
  end.

Definition keyword_filter_with (prompt : string) (df : DataFrame)
  : Script DataFrame :=
  if truthy prompt then
    mask ← mask_loop_with prompt df (valid_cols df)
                          (replicate (length (rows df)) false);
    let df_filtered := boolean_index df mask in
    if df_empty df_filtered
    then notify (WarnNoResults prompt);; st_stop
    else notify (SuccessFound prompt (length (rows df_filtered)));;
         mret df_filtered
  else mret df.

End KeywordFilter.

(** ** Building blocks of the aggregations *)

(** The sum of a list of integers. *)
Definition sum_Z (l : list Z) : Z := foldr Z.add 0 l.

(** The value an int64 cell takes for an integer: numpy's integer
    arithmetic wraps around silently. *)
Definition wrap64 (z : Z) : Z := (z + 2 ^ 63) mod 2 ^ 64 - 2 ^ 63.

(** [Series.sum()], and the sum of a group, on an int64 column. *)
Definition Series_sum (l : list Z) : Z :=
  foldl (fun acc x => wrap64 (acc + x)) 0 l.

(** An int64 as a float64, rounded to the nearest. *)
Definition Z_to_float (z : Z) : float :=
  SF2Prim (binary_normalize prec emax z 0 false).

(** [a / b] on numbers: [None] stands for a division by zero. *)
Definition truediv (a b : Z) : option Q :=
  if b =? 0 then None else Some (inject_Z a / inject_Z b)%Q.

(** Python's [sorted], for the order [leb]. *)
Definition sorted {A} (leb : A → A → bool) (l : list A) : list A :=
  merge_sort (fun a b => Is_true (leb a b)) l.

(** [df.groupby(key)]: one group per distinct key, the groups in
    ascending key order, the rows of a group in frame order; rows whose
    key is missing are dropped. *)
Definition groupby {K} `{EqDecision K} (leb : K → K → bool)
    (key : Row → option K) (rs : list Row) : list (K * list Row) :=
  map (fun k => (k, List.filter (fun r => bool_decide (key r = Some k)) rs))
      (sorted leb (remove_dups (omap key rs))).

(** [Series.count()]: the cells that are not missing. *)
Definition count_cells (l : list cell) : Z :=
  Z.of_nat (length (List.filter (fun c => bool_decide (is_Some c)) l)).

(** [Series.nunique()]: the distinct values, missing ones left out. *)
Definition nunique (l : list cell) : nat :=
  length (remove_dups (omap id l)).

(** ** Section 5 of the script: the KPIs, lines 217-220 *)

Definition total_sales (df : DataFrame) : Z := Series_sum (map paid (rows df)).

Definition total_orders (df : DataFrame) : Z := Z.of_nat (length (rows df)).

Definition avg_order_value (df : DataFrame) : option Q :=
  if total_orders df >? 0
  then truediv (total_sales df) (total_orders df)
  else Some 0%Q.

(** [Series.mean()]: [None] is the [NaN] of an empty column.  pandas
    adds the cells up as floats, so nothing wraps here. *)
Definition mean (l : list Z) : option Q :=
  truediv (sum_Z l) (Z.of_nat (length l)).

Definition avg_margin (df : DataFrame) : option Q :=
  if has_col df Margin then mean (map margin (rows df)) else Some 0%Q.

(** ** The seller tab: months and churn, lines 351-396 *)

(** [df_monthly['주문월']] of one row. *)
Definition order_month (r : Row) : Period := to_period_M (order_date r).

(** [sorted(df_monthly['주문월'].unique())] *)
Definition periods (df : DataFrame) : list Period :=
  sorted period_leb (remove_dups (map order_month (rows df))).

(** [set(df_monthly[df_monthly['주문월'] == p]['셀러명'])] on a seller
    column that holds text.  pandas reads a column in which some cell names
    a seller as dtype object; its missing cells all hold the one object
    [np.nan], which a set keeps once. *)
Definition sellers_of (df : DataFrame) (p : Period) : gset cell :=
  list_to_set
    (map seller
         (List.filter (fun r => bool_decide (order_month r = p)) (rows df))).

(** Lines 383-394.  The entry for a month is the pair of its period and
    the signed count; [str(curr_month)] prints the period.  The indices
    [i-1] and [i] are within [periods], so no lookup fails. *)
Definition churn_data (df : DataFrame) : list (Period * Z) :=
  let ps := periods df in
  if bool_decide (1 < length ps)%nat then
    omap (fun i =>
            prev_month ← ps !! (i - 1)%nat;
            curr_month ← ps !! i;
            let prev_sellers := sellers_of df prev_month in
            let curr_sellers := sellers_of df curr_month in
            let churned := Z.of_nat (size (prev_sellers ∖ curr_sellers)) in
            Some (curr_month, churned * -1))
         (seq 1 (length ps - 1))
  else [].

(** The same set on a seller column in which no cell names a seller.
    pandas reads such a column as dtype float64, and every cell read from
    it is a new float: [NaN] is not equal to itself, so the set keeps one
    element for every row of the month.  The elements are told apart here
    by the position of their row in the frame. *)
Definition sellers_of_float64 (df : DataFrame) (p : Period) : gset nat :=
  list_to_set
    (map fst
         (List.filter (fun ir => bool_decide (order_month (snd ir) = p))
                      (imap pair (rows df)))).

(** Lines 383-394 on such a column. *)
Definition churn_data_float64 (df : DataFrame) : list (Period * Z) :=
  let ps := periods df in
  if bool_decide (1 < length ps)%nat then
    omap (fun i =>
            prev_month ← ps !! (i - 1)%nat;
            curr_month ← ps !! i;
            let prev_sellers := sellers_of_float64 df prev_month in
            let curr_sellers := sellers_of_float64 df curr_month in
            let churned := Z.of_nat (size (prev_sellers ∖ curr_sellers)) in
            Some (curr_month, churned * -1))
         (seq 1 (length ps - 1))
  else [].

(** [monthly_seller_counts.iloc[-1]], 0 for an empty table. *)
Definition current_active (df : DataFrame) : nat :=
  match last (groupby period_leb (fun r => Some (order_month r)) (rows df)) with
  | Some g => nunique (map seller (snd g))
  | None => 0%nat
  end.

(** ** Section 1 of the script: the API keys, lines 19-52 *)

(** What [get_naver_api_secrets] hands back: the pair it returns, or the
    [KeyError] of a secrets section that lacks one of the two keys. *)
Inductive SecretsResult :=
  | Keys (client_id client_secret : option string)
  | SecretsKeyError (key : string).

(** [load_dotenv(path)] with its default [override=False]: a variable the
    process already has keeps its value. *)
Definition load_dotenv (file environ : gmap string string)
  : gmap string string :=
  environ ∪ file.

(** The loop of lines 39-42 over the candidate paths: [None] is a path
    that does not exist, [Some file] the variables of a file that does. *)
Fixpoint load_first_env (env_candidates : list (option (gmap string string)))
    (environ : gmap string string) : gmap string string :=
  match env_candidates with
  | [] => environ
  | None :: rest => load_first_env rest environ
  | Some file :: _ => load_dotenv file environ
  end.

(** [bool(x)] for the result of [os.getenv]. *)
Definition truthy_opt (x : option string) : bool :=
  match x with Some s => truthy s | None => false end.

(** Lines 19-50, for a secrets file that exists: [secrets] maps its
    sections to their keys. *)
Definition get_naver_api_secrets
    (secrets : gmap string (gmap string string))
    (env_candidates : list (option (gmap string string)))
    (environ : gmap string string) : SecretsResult :=
  match secrets !! "naver_api"%string with
  | Some naver_api =>
      match naver_api !! "client_id"%string with
      | None => SecretsKeyError "client_id"
      | Some c_id =>
          match naver_api !! "client_secret"%string with
          | None => SecretsKeyError "client_secret"
          | Some c_secret => Keys (Some c_id) (Some c_secret)
          end
      end
  | None =>
      let environ' := load_first_env env_candidates environ in
      let c_id := environ' !! "NAVER_CLIENT_ID"%string in
      let c_secret := environ' !! "NAVER_CLIENT_SECRET"%string in
      if truthy_opt c_id && truthy_opt c_secret
      then Keys c_id c_secret
      else Keys None None
  end.

(** What the script finds on its host: the sections of the secrets file
    of Streamlit ([None] when there is no such file), the [.env]
    candidates, the environment of the process, the data file as
    [load_data] reads it, and the date of the day.  A secrets file is
    represented by its sections and their text values; one with values
    outside a section, or with values that are not text, is not
    represented. *)
Record Host := mkHost {
  h_secrets : option (gmap string (gmap string string));
  h_env_files : list (option (gmap string string));
  h_environ : gmap string string;
  h_file : option DataFrame;
  h_today : Date
}.

(** Line 52.  Without a secrets file [st.secrets] cannot be read: the
    test ["naver_api" in st.secrets] of line 26 raises. *)
Definition read_api_keys (h : Host)
  : Script (option string * option string) :=
  match h_secrets h with
  | None => raise SecretNotFoundError
  | Some secrets =>
      match get_naver_api_secrets secrets (h_env_files h) (h_environ h) with
      | Keys client_id client_secret => mret (client_id, client_secret)
      | SecretsKeyError key => raise (SecretKeyError key)
      end
  end.

(** ** Section 3 of the script: the sidebar, lines 133-163 *)

(** [a <= b] on timestamps: by date, then by time of day. *)
Definition ts_leb (a b : Timestamp) : bool :=
  if bool_decide (ts_date a = ts_date b)
  then ts_time a <=? ts_time b
  else date_leb (ts_date a) (ts_date b).

(** [Series.min()]; [None] is the missing value of an empty series. *)
Definition series_min {A} (leb : A → A → bool) (l : list A) : option A :=
  match l with
  | [] => None
  | x :: l' => Some (foldl (fun m y => if leb y m then y else m) x l')
  end.

(** [Series.max()] *)
Definition series_max {A} (leb : A → A → bool) (l : list A) : option A :=
  match l with
  | [] => None
  | x :: l' => Some (foldl (fun m y => if leb m y then y else m) x l')
  end.

(** [raw_df['주문일'].min().date()] *)
Definition min_date (df : DataFrame) : option Date :=
  ts_date <$> series_min ts_leb (map order_date (rows df)).

(** [raw_df['주문일'].max().date()] *)
Definition max_date (df : DataFrame) : option Date :=
  ts_date <$> series_max ts_leb (map order_date (rows df)).

(** [Series.unique()]: the distinct values in order of first appearance. *)
Fixpoint unique {A} `{EqDecision A} (l : list A) : list A :=
  match l with
  | [] => []
  | x :: l' => x :: List.filter (fun y => bool_decide (y ≠ x)) (unique l')
  end.

(** [raw_df['주문경로'].unique().tolist()] *)
Definition all_channels (df : DataFrame) : list string :=
  unique (map channel (rows df)).

(** Lines 160-163: [if client_id:]. *)
Definition api_status (client_id : option string) : Notice :=
  if truthy_opt client_id then SuccessApiKeyLoaded else WarnApiKeyNotFound.

(** The values of the widgets: the date input, the channel multiselect,
    the event checkbox and the keyword prompt. *)
Record Widgets := mkWidgets {
  w_dates : list Date;
  w_channels : list string;
  w_event : bool;
  w_prompt : string
}.

(** The view that reaches the keyword filter: filters 1 to 3 applied to
    the loaded table.  The event box exists only when the table has the
    flag column (lines 152-155). *)
Definition before_keyword (raw_df : DataFrame) (date_range : list Date)
    (selected_channels : list string) (event_checkbox : bool) : DataFrame :=
  event_filter (has_col raw_df EventFlag && event_checkbox)
    (channel_filter selected_channels (date_filter date_range raw_df)).

(** ** The grouped series of tabs 1 and 2 *)

(** Line 241: the revenue of each calendar day. *)
Definition daily_sales (df : DataFrame) : list (Date * Z) :=
  map (fun g => (fst g, Series_sum (map paid (snd g))))
      (groupby date_leb (fun r => Some (ts_date (order_date r))) (rows df)).

(** Line 276: revenue and margin of each channel. *)
Definition channel_perf (df : DataFrame) : list (string * Z * Z) :=
  map (fun g => (fst g, Series_sum (map paid (snd g)),
                        Series_sum (map margin (snd g))))
      (groupby String.leb (fun r => Some (channel r)) (rows df)).

(** ** The seller tab: new sellers and the churn chart, lines 372-414 *)

(** Line 372: the first order of each named seller. *)
Definition first_order_date (df : DataFrame) : list (string * Timestamp) :=
  omap (fun g => t ← series_min ts_leb (map order_date (snd g));
                 Some (fst g, t))
       (groupby String.leb seller (rows df)).

(** Line 373: the month in which each seller joined. *)
Definition join_months (df : DataFrame) : list Period :=
  map (fun s => to_period_M (snd s)) (first_order_date df).

(** Lines 376-378: the number of sellers that joined in each month, by
    ascending month. *)
Definition new_sellers (df : DataFrame) : list (Period * Z) :=
  map (fun p => (p, Z.of_nat (length
         (List.filter (fun q => bool_decide (q = p)) (join_months df)))))
      (sorted period_leb (remove_dups (join_months df))).

(** The value of a month in a two-column table. *)
Definition month_value (t : list (Period * Z)) (p : Period) : option Z :=
  snd <$> List.find (fun e => bool_decide (fst e = p)) t.

(** Line 402: [pd.merge(new_sellers, churn_df, on='월', how='outer')
    .fillna(0)], for two tables in which a month occurs at most once. *)
Definition merge_outer (new churn : list (Period * Z))
  : list (Period * Z * Z) :=
  map (fun p => (p, default 0 (month_value new p),
                    default 0 (month_value churn p)))
      (sorted period_leb (remove_dups (map fst new ++ map fst churn))).

(** [analysis_df] after lines 399-404: which columns it has depends on
    which of the two tables is empty. *)
Inductive Analysis :=
  | BothSeries (t : list (Period * Z * Z))   (* 월, 신규 유입, 이탈 *)
  | NewOnly (t : list (Period * Z))          (* 월, 신규 유입 *)
  | ChurnOnly (t : list (Period * Z)).       (* 월, 이탈; no column if empty *)

Definition analysis_df (df : DataFrame) : Analysis :=
  match new_sellers df with
  | _ :: _ =>
      match churn_data df with
      | _ :: _ => BothSeries (merge_outer (new_sellers df) (churn_data df))
      | [] => NewOnly (new_sellers df)
      end
  | [] => ChurnOnly (churn_data df)
  end.

(** What lines 406-414 make of it: no chart for an empty table, the two
    bar series, or the [KeyError] of the column the table lacks. *)
Inductive ChurnChart :=
  | NoChart
  | Bars (months : list Period) (new_series churn_series : list Z)
  | KeyErrorNew        (* analysis_df['신규 유입'] *)
  | KeyErrorChurn.     (* analysis_df['이탈'] *)

(** The tables are already in month order, so [sort_values('월')] keeps
    them as they are. *)
Definition fig_churn (df : DataFrame) : ChurnChart :=
  match analysis_df df with
  | ChurnOnly [] => NoChart
  | ChurnOnly (_ :: _) => KeyErrorNew
  | NewOnly _ => KeyErrorChurn
  | BothSeries t =>
      Bars (map (fun e => fst (fst e)) t) (map (fun e => snd (fst e)) t)
           (map snd t)
  end.

(** ** Section 6 of the script: the tables and the tabs *)

(** [(x / total_sales * 100)] for one product: the division of two int64
    gives a float64. *)
Definition share (revenue total : Z) : float :=
  PrimFloat.mul (PrimFloat.div (Z_to_float revenue) (Z_to_float total))
                (Z_to_float 100).

(** ** Lines 217 and 265-267 on amounts with decimals

    A column of amounts written with decimals has dtype float64, and its
    sums are rounded.  The two lines are modelled here on the two columns
    they read, product and amount, for a view of fewer than eight rows:
    numpy adds a column that short cell by cell in frame order. *)

(** [Series.sum()] on a float64 column of fewer than eight cells. *)
Definition Series_sum_float64 (l : list float) : float :=
  foldl PrimFloat.add 0%float l.

(** The sum of a group on a float64 column: pandas adds the cells of a
    group in frame order with a running compensation (Kahan), which it
    resets when it is not a number. *)
Definition group_sum_float64 (l : list float) : float :=
  fst (foldl (fun acc val =>
                let y := PrimFloat.sub val (snd acc) in
                let t := PrimFloat.add (fst acc) y in
                let c := PrimFloat.sub (PrimFloat.sub t (fst acc)) y in
                (t, if PrimFloat.eqb c c then c else 0%float))
             (0%float, 0%float) l).

(** Line 217. *)
Definition total_sales_float64 (view : list (string * float)) : float :=
  Series_sum_float64 (map snd view).

(** The column 총매출 of lines 265-267, before the table is sorted. *)
Definition revenue_by_product_float64 (view : list (string * float))
  : list (string * float) :=
  map (fun k =>
         (k, group_sum_float64
               (map snd (List.filter (fun r => bool_decide (fst r = k)) view))))
      (sorted String.leb (remove_dups (map fst view))).

(** A chart of plotly express is modelled by the columns it is told to
    read: it raises [ValueError] for a name the frame lacks.  What plotly
    makes of the cells is not modelled. *)
Definition plotly_col (df : DataFrame) (c : Column) : Script unit :=
  if has_col df c then mret tt else raise PlotlyValueError.

(** Section 5: the four [st.metric] cards, lines 217-226. *)
Definition kpi_section (df : DataFrame) : Script unit :=
  require_col df PaidAmount;;
  show (OMetrics (total_sales df) (total_orders df)
                 (avg_order_value df) (avg_margin df)).

(** Tab 4: the seller analysis, lines 341-435.  The multiselect and the
    trend chart of lines 422-435 show nothing that is modelled. *)
Definition tab4 (df : DataFrame) : Script unit :=
  if negb (has_col df SellerName)
  then notify WarnNoSellerColumn
  else
    (* lines 348-359 *)
    require_col df OrderDate;;
    show (OSellerMetrics (nunique (map seller (rows df)))
                         (current_active df));;
    (* lines 372-414 *)
    match fig_churn df with
    | KeyErrorNew => raise KeyErrorNewSellers
    | KeyErrorChurn => raise KeyErrorChurned
    | NoChart | Bars _ _ _ => mret tt
    end;;
    (* line 420 *)
    require_col df PaidAmount.

Section Script.

(** [DataFrame.sort_values(col, ascending=False)] with pandas' default
    [kind='quicksort'], on rows of any type and an integer column.  The
    algorithm belongs to numpy; the script relies on its contract only
    (see [sort_contract] below). *)
Variable sort_values_desc : ∀ A : Type, (A → Z) → list A → list A.

(** The engine behind [str.contains]. *)
Variable E : Engine.

(** Lines 265-269. *)
Definition prod_rank (df : DataFrame) : list ProdRank :=
  let agg :=
    map (fun g => (fst g, Series_sum (map quantity (snd g)),
                          Series_sum (map paid (snd g))))
        (groupby String.leb (fun r => Some (product r)) (rows df)) in
  let sorted_agg := sort_values_desc _ snd agg in
  map (fun a => {| pr_product := fst (fst a);
                   pr_quantity := snd (fst a);
                   pr_revenue := snd a;
                   pr_share := share (snd a) (total_sales df) |})
      sorted_agg.

(** Lines 317-320. *)
Definition region_df (df : DataFrame) : list RegionStat :=
  sort_values_desc _ rg_revenue
    (map (fun g => {| rg_region := fst g;
                      rg_orders := Z.of_nat (length (snd g));
                      rg_revenue := Series_sum (map paid (snd g)) |})
         (groupby String.leb region (rows df))).

(** The grouped table of lines 330-332, before it is sorted. *)
Definition vip_groups (df : DataFrame) : list Vip :=
  map (fun g => {| vip_uid := fst g;
                   vip_orders := count_cells (map order_no (snd g));
                   vip_paid := Series_sum (map paid (snd g)) |})
      (groupby String.leb (fun r => Some (uid r)) (rows df)).

(** Lines 330-333: [.sort_values('구매횟수', ascending=False).head(20)]. *)
Definition vip_df (df : DataFrame) : list Vip :=
  take 20 (sort_values_desc _ vip_orders (vip_groups df)).

(** ** The tabs *)

(** Tab 1, lines 235-270: the daily series reads the date and the amount,
    the sunburst chart the product name, the ranking the quantity. *)
Definition tab1 (df : DataFrame) : Script unit :=
  require_col df OrderDate;;
  require_col df PaidAmount;;
  plotly_col df ProductName;;
  require_col df Quantity;;
  show (OProdRank (prod_rank df)).

(** Tab 2, lines 273-321: the channel table reads the channel, the amount
    and, without a test, the margin; the scatter chart the quantity and the
    product name; the regional chart and table are built only when the
    region column exists, and the table counts the cells of [UID]. *)
Definition tab2 (df : DataFrame) : Script unit :=
  require_col df Channel;;
  require_col df PaidAmount;;
  require_col df Margin;;
  plotly_col df Quantity;;
  plotly_col df ProductName;;
  if has_col df Region
  then require_col df UID;; show (ORegion (region_df df))
  else mret tt.

(** Tab 3, lines 323-339: the VIP table and the row browser. *)
Definition tab3 (df : DataFrame) : Script unit :=
  (if has_col df UID
   then require_col df OrderNo;;
        require_col df PaidAmount;;
        show (OVip (vip_df df))
   else mret tt);;
  show (ORows df).

(** ** The whole script *)

(** Lines 52-226: from the API keys to the KPI cards.  The result is the
    filtered view that the tabs work on. *)
Definition before_tabs (h : Host) (w : Widgets) : Script DataFrame :=
  keys ← read_api_keys h;
  raw_df ← load_data (h_file h);
  if df_empty raw_df then st_stop else
  (* the sidebar: lines 137, 149, 157 and 160-163 *)
  require_col raw_df OrderDate;;
  require_col raw_df Channel;;
  notify (InfoUpdated (h_today h));;
  notify (api_status (fst keys));;
  (* section 4 *)
  df_filtered ← keyword_filter_with E (w_prompt w)
    (before_keyword raw_df (w_dates w) (w_channels w) (w_event w));
  (* section 5 *)
  kpi_section df_filtered;;
  mret df_filtered.

Definition dashboard (h : Host) (w : Widgets) : Script unit :=
  df_filtered ← before_tabs h w;
  tab1 df_filtered;;
  tab2 df_filtered;;
  tab3 df_filtered;;
  tab4 df_filtered.

End Script.

(** ** A sorting routine that meets the contract of [sort_values]

    An insertion sort into descending key order that puts a row before the
    rows of equal key that followed it in the table, so it keeps ties in
    table order. *)

Fixpoint insert_desc {A} (key : A → Z) (x : A) (l : list A) : list A :=
  match l with
  | [] => [x]
  | y :: l' =>
      if key y <=? key x then x :: l else y :: insert_desc key x l'
  end.

Definition stable_sort_desc (A : Type) (key : A → Z) (l : list A) : list A :=
  foldr (insert_desc key) [] l.

(** ** The seller tab: the default selection of sellers, lines 420-426 *)

(** The revenue of each named seller, line 420. *)
Definition seller_revenue (df : DataFrame) : list (string * Z) :=
  map (fun g => (fst g, Series_sum (map paid (snd g))))
      (groupby String.leb seller (rows df)).

(** [Series.nlargest(n)] with its default [keep='first']: the [n] largest
    values, equal values in the order of the series. *)
Definition nlargest {A} (n : nat) (value : A → Z) (l : list A) : list A :=
  take n (stable_sort_desc A value l).

(** Line 420: the default of the seller multiselect. *)
Definition top_sellers (df : DataFrame) : list string :=
  map fst (nlargest 5 snd (seller_revenue df)).

(** Line 424: the options of the seller multiselect. *)
Definition seller_options (df : DataFrame) : list cell :=
  unique (map seller (rows df)).

(** ** Vocabulary of the statements *)

(** [a <= b] on calendar dates. *)
Definition date_le (a b : Date) : Prop :=
  year a < year b ∨
  (year a = year b ∧
   (month a < month b ∨ (month a = month b ∧ day a <= day b))).

(** [a] is a month before [b]. *)
Definition period_lt (a b : Period) : Prop :=
  p_year a < p_year b ∨ (p_year a = p_year b ∧ p_month a < p_month b).

(** [l'] keeps exactly the elements of [l] that satisfy [P], in the order
    and with the multiplicity they have in [l]. *)
Inductive Filtered {A} (P : A → Prop) : list A → list A → Prop :=
  | Filtered_nil : Filtered P [] []
  | Filtered_keep x l l' :
      P x → Filtered P l l' → Filtered P (x :: l) (x :: l')
  | Filtered_drop x l l' :
      ¬ P x → Filtered P l l' → Filtered P (x :: l) l'.

(** What the script may assume of [sort_values(col, ascending=False)]: the
    same rows, by descending key.  Nothing is promised on rows of equal
    key ([kind='quicksort'] is not a stable sort). *)
Definition sort_contract
    (sort_values_desc : ∀ A : Type, (A → Z) → list A → list A) : Prop :=
  ∀ (A : Type) (key : A → Z) (l : list A),
    sort_values_desc A key l ≡ₚ l ∧
    Sorted (fun a b => key b <= key a) (sort_values_desc A key l).

(** The whole numbers of a column are small enough for every sum of them
    to be exact: their magnitudes add up to less than 2^53, so no sum of
    cells overflows an int64 and a float64 holds every such sum without
    rounding. *)
Definition exact_sums (val : Row → Z) (df : DataFrame) : Prop :=
  sum_Z (map (fun r => Z.abs (val r)) (rows df)) < 2 ^ 53.


(** Some piece of the text matches the pattern. *)
Definition contains_match (r : Re.regex) (text : string) : Prop :=
  ∃ w, Re.occurs_in w (list_ascii_of_string text) ∧ Re.Matches r w.

(** Some designated text column that exists in [df] satisfies [P] on the
    row. *)
Definition some_search_col (df : DataFrame) (P : string → Prop) (r : Row)
  : Prop :=
  ∃ col, col ∈ search_cols ∧ has_col df (fst col) = true ∧ P (snd col r).

(** What the keyword filter does once it has kept [kept]: lines 206-212. *)
Definition keyword_outcome (prompt : string) (df : DataFrame)
    (kept : list Row) : Script DataFrame :=
  let df_filtered := {| columns := columns df; rows := kept |} in
  if df_empty df_filtered
  then ([ONotice (WarnNoResults prompt)], Stop)
  else ([ONotice (SuccessFound prompt (length kept))], Done df_filtered).







(** ** Sample data

    Five orders over three months; the sellers active per month are
    {A, B}, {B, C} and {C}. *)

Definition all_columns : list Column :=
  [OrderDate; Channel; PaidAmount; Quantity; ProductName; OptionCode;
   Address; Purpose; SelectedOption; EventFlag; Margin; Region; UID;
   OrderNo; SellerName].

Definition order (y m d : Z) (ch : string) (amount qty : Z)
    (prod addr : string) (customer no seller_name : string) : Row :=
  {| order_date := {| ts_date := mkDate y m d; ts_time := 36000 |};
     channel := ch; paid := amount; quantity := qty; product := prod;
     option_code := None; address := Some addr; purpose := None;
     selected_option := None; event_flag := Some "N"%string;
     margin := amount / 10; region := Some addr; uid := customer;
     order_no := Some no; seller := Some seller_name |}.

Definition row1 : Row :=
  order 2024 1 5 "web" 100 1 "Tangerine" "Seoul" "u1" "n1" "A".
Definition row2 : Row :=
  order 2024 1 20 "app" 200 2 "Hallabong" "Jeju" "u2" "n2" "B".
Definition row3 : Row :=
  order 2024 2 3 "app" 300 3 "Hallabong" "Jeju" "u2" "n3" "B".
Definition row4 : Row :=
  order 2024 2 10 "kakao" 300 3 "Tangerine" "Busan" "u3" "n4" "C".
Definition row5 : Row :=
  order 2024 3 7 "kakao" 50 1 "Tangerine" "Busan" "u3" "n5" "C".

Definition sample : DataFrame :=
  {| columns := all_columns; rows := [row1; row2; row3; row4; row5] |}.

(** Twenty-five customers with one order each. *)
Definition customers : list string :=
  [ "c01"; "c02"; "c03"; "c04"; "c05"; "c06"; "c07"; "c08"; "c09"; "c10";
    "c11"; "c12"; "c13"; "c14"; "c15"; "c16"; "c17"; "c18"; "c19"; "c20";
    "c21"; "c22"; "c23"; "c24"; "c25" ]%string.

Definition crowd : DataFrame :=
  {| columns := all_columns;
     rows := map (fun u => order 2024 1 5 "web" 100 1 "Tangerine" "Seoul"
                                 u "n" "A") customers |}.

(** The same orders in a file that has neither the margin nor the seller
    column. *)
Definition sample_bare : DataFrame :=
  {| columns := [OrderDate; Channel; PaidAmount; Quantity; ProductName];
     rows := rows sample |}.

(** The same orders in a file with the margin, and without the region,
    the customer and the seller columns. *)
Definition sample_plain : DataFrame :=
  {| columns := [OrderDate; Channel; PaidAmount; Quantity; ProductName;
                 Margin];
     rows := rows sample |}.

(** The same orders in a file whose seller column is empty throughout. *)
Definition without_seller (r : Row) : Row :=
  {| order_date := order_date r; channel := channel r; paid := paid r;
     quantity := quantity r; product := product r;
     option_code := option_code r; address := address r;
     purpose := purpose r; selected_option := selected_option r;
     event_flag := event_flag r; margin := margin r; region := region r;
     uid := uid r; order_no := order_no r; seller := None |}.

Definition nameless : DataFrame :=
  {| columns := all_columns; rows := map without_seller (rows sample) |}.

(** Three orders for two products, with the amounts 0.2, 0.1 and 0.3 as
    float64. *)
Definition decimals : list (string * float) :=
  [ ("Tangerine"%string, 0x1.999999999999ap-3%float);
    ("Hallabong"%string, 0x1.999999999999ap-4%float);
    ("Tangerine"%string, 0x1.3333333333333p-2%float) ].

(** Two orders written in Korean. *)
Definition orders_kr : DataFrame :=
  {| columns := all_columns;
     rows := [ order 2024 1 5 "카카오톡" 100 1 "제주 감귤 5kg" "서울" "u1" "n1" "A";
               order 2024 1 6 "web" 200 1 "한라봉 3KG" "부산" "u2" "n2" "B" ] |}.

(** A host with a secrets file that has another section only, no [.env]
    file and no key in the environment; the data file holds the sample. *)
Definition host : Host :=
  {| h_secrets := Some {[ "database"%string := ∅ ]};
     h_env_files := [None; None];
     h_environ := ∅;
     h_file := Some sample;
     h_today := mkDate 2024 4 1 |}.

(** The same host with another data file, or none. *)
Definition host_with (file : option DataFrame) : Host :=
  {| h_secrets := h_secrets host; h_env_files := h_env_files host;
     h_environ := h_environ host; h_file := file; h_today := h_today host |}.

(** The widgets as the script sets them up on the sample, with another
    date range or a keyword typed in. *)
Definition widgets (date_range : list Date) (prompt : string) : Widgets :=
  {| w_dates := date_range;
     w_channels := ["web"; "app"; "kakao"]%string;
     w_event := false;
     w_prompt := prompt |}.

Definition whole_range : list Date := [mkDate 2024 1 5; mkDate 2024 3 7].

(** * Properties *)

(** ** Helper lemmas on filters *)

Lemma date_leb_spec (a b : Date) : date_leb a b = true ↔ date_le a b.
Proof.
  unfold date_leb, date_le.
  destruct (Z.ltb_spec (year a) (year b)); [intuition lia|].
  destruct (Z.ltb_spec (year b) (year a)); [intuition (lia || discriminate)|].
  destruct (Z.ltb_spec (month a) (month b)); [intuition lia|].
  destruct (Z.ltb_spec (month b) (month a)); [intuition (lia || discriminate)|].
  rewrite Z.leb_le. intuition lia.
Qed.

Lemma date_le_refl (a : Date) : date_le a a.
Proof. unfold date_le. lia. Qed.

Lemma Filtered_filter {A} (P : A → Prop) (p : A → bool) (l : list A) :
  (∀ x, p x = true ↔ P x) → Filtered P l (List.filter p l).
Proof.
  intros Hp. induction l as [|x l IH]; simpl.
  - constructor.
  - destruct (p x) eqn:E.
    + apply Filtered_keep; [by apply Hp | done].
    + apply Filtered_drop; [|done]. rewrite <- Hp. congruence.
Qed.

Lemma Filtered_elem_of {A} (P : A → Prop) (l l' : list A) (x : A) :
  Filtered P l l' → (x ∈ l' ↔ x ∈ l ∧ P x).
Proof.
  induction 1 as [|y l l' Hy _ IH|y l l' Hy _ IH].
  - split; [intros H%elem_of_nil | intros [H%elem_of_nil _]]; done.
  - rewrite !elem_of_cons, IH. split.
    + intros [-> | [? ?]]; auto.
    + intros [[-> | ?] ?]; auto.
  - rewrite elem_of_cons, IH. split.
    + intros [? ?]; auto.
    + intros [[-> | ?] ?]; [contradiction | auto].
Qed.

Lemma Filtered_unique {A} (P : A → Prop) (l l1 l2 : list A) :
  Filtered P l l1 → Filtered P l l2 → l1 = l2.
Proof.
  intros H1. revert l2.
  induction H1 as [|x l l1 Hx _ IH|x l l1 Hx _ IH];
    intros l2 H2; inversion H2; subst; try contradiction.
  - reflexivity.
  - f_equal. by apply IH.
  - by apply IH.
Qed.

Lemma isin_spec (values : list string) (x : string) :
  isin values x = true ↔ x ∈ values.
Proof.
  unfold isin. rewrite existsb_exists. split.
  - intros (y & Hy & ->%String.eqb_eq). by apply list_elem_of_In.
  - intros H. exists x. split; [by apply list_elem_of_In | apply String.eqb_refl].
Qed.

Lemma filter_sublist {A} (p : A → bool) (l : list A) :
  List.filter p l `sublist_of` l.
Proof.
  induction l as [|x l IH]; simpl; [done|].
  destruct (p x); by constructor.
Qed.

(** Membership in an explicit list. *)
Ltac in_list :=
  repeat first [ apply list_elem_of_here | apply list_elem_of_further ].

(** ** The date filter *)

(** C2.  The date filter with a pair [start_date, end_date] keeps the
    columns and keeps exactly the rows whose calendar date (the time of day
    plays no part) lies between the two dates, both ends included; a row
    dated exactly on either end of a well-ordered range is kept; and a range
    that is not a pair of dates leaves the view as it is. *)
Theorem C2_date_filter_inclusive (df : DataFrame) :
  (∀ start_date end_date,
     columns (date_filter [start_date; end_date] df) = columns df ∧
     Filtered (fun r => date_le start_date (ts_date (order_date r)) ∧
                        date_le (ts_date (order_date r)) end_date)
              (rows df) (rows (date_filter [start_date; end_date] df))) ∧
  (∀ start_date end_date r,
     r ∈ rows df → date_le start_date end_date →
     ts_date (order_date r) = start_date ∨ ts_date (order_date r) = end_date →
     r ∈ rows (date_filter [start_date; end_date] df)) ∧
  (∀ date_range, length date_range ≠ 2%nat → date_filter date_range df = df).
Proof.
  assert (Hpair : ∀ s e,
    Filtered (fun r => date_le s (ts_date (order_date r)) ∧
                       date_le (ts_date (order_date r)) e)
             (rows df) (rows (date_filter [s; e] df))).
  { intros s e. simpl. apply Filtered_filter. intros r.
    rewrite andb_true_iff, !date_leb_spec. done. }
  split; [|split].
  - intros s e. split; [done | apply Hpair].
  - intros s e r Hin Hse Hr.
    apply (Filtered_elem_of _ _ _ r (Hpair s e)). split; [done|].
    destruct Hr as [-> | ->]; split; auto using date_le_refl.
  - intros [|a [|b [|c l]]] Hlen; simpl in *; try done.
Qed.

Lemma C2_date_filter_witness :
  row2 ∈ rows (date_filter [mkDate 2024 1 20; mkDate 2024 2 3] sample) ∧
  row3 ∈ rows (date_filter [mkDate 2024 1 20; mkDate 2024 2 3] sample) ∧
  date_filter [mkDate 2024 1 20] sample = sample.
Proof.
  pose proof (C2_date_filter_inclusive sample) as (_ & Hends & Hpass).
  split; [|split].
  - apply Hends; [simpl; in_list | unfold date_le; simpl; lia | by left].
  - apply Hends; [simpl; in_list | unfold date_le; simpl; lia | by right].
  - apply Hpass. simpl. lia.
Defined.

(** ** The channel filter *)

(** C8.  With a non-empty selection the channel filter keeps the columns
    and keeps exactly the rows whose channel is one of the selected
    channels; with an empty selection it returns the view unchanged. *)
Theorem C8_channel_filter (df : DataFrame) (selected_channels : list string) :
  (selected_channels ≠ [] →
     columns (channel_filter selected_channels df) = columns df ∧
     Filtered (fun r => channel r ∈ selected_channels)
              (rows df) (rows (channel_filter selected_channels df))) ∧
  channel_filter [] df = df.
Proof.
  split; [|done].
  destruct selected_channels as [|c cs]; [done|]. intros _.
  split; [done|]. unfold channel_filter, select. cbn [rows].
  apply Filtered_filter. intros r. apply isin_spec.
Qed.

Lemma C8_channel_filter_witness :
  rows (channel_filter ["app"%string; "web"%string] sample)
  = [row1; row2; row3].
Proof.
  destruct (C8_channel_filter sample ["app"%string; "web"%string])
    as [Hsel _].
  destruct Hsel as [_ Hrows]; [discriminate|].
  eapply Filtered_unique; [exact Hrows|].
  simpl. repeat first
    [ apply Filtered_nil
    | apply Filtered_keep; [by apply isin_spec|]
    | apply Filtered_drop; [by intros H%isin_spec|] ].
Defined.

(** ** Average order value *)

Lemma truediv_pos (a b : Z) :
  0 < b → ∃ q, truediv a b = Some q ∧ (q * inject_Z b == inject_Z a)%Q.
Proof.
  intros Hb. unfold truediv.
  destruct (Z.eqb_spec b 0) as [->|Hne]; [lia|].
  eexists. split; [reflexivity|].
  rewrite Qmult_comm. apply Qmult_div_r.
  intros H. apply Hne. unfold Qeq in H. simpl in H. lia.
Qed.

(** C5.  The average order value is always a number, never the fault of a
    division by zero: it is the quotient of total sales by the order count
    when there is at least one order, and exactly 0 on a view without
    rows. *)
Theorem C5_avg_order_value (df : DataFrame) :
  (∃ q, avg_order_value df = Some q) ∧
  (0 < total_orders df →
     ∃ q, avg_order_value df = Some q ∧
          (q * inject_Z (total_orders df) == inject_Z (total_sales df))%Q) ∧
  (rows df = [] → avg_order_value df = Some 0%Q).
Proof.
  unfold avg_order_value. split; [|split].
  - destruct (Z.gtb_spec (total_orders df) 0) as [Hpos|Hle]; [|eauto].
    destruct (truediv_pos (total_sales df) _ Hpos) as (q & -> & _). eauto.
  - intros Hpos. destruct (Z.gtb_spec (total_orders df) 0); [|lia].
    by apply truediv_pos.
  - intros Hnil. unfold total_orders. rewrite Hnil. reflexivity.
Qed.

Lemma C5_avg_order_value_witness :
  (∃ q, avg_order_value sample = Some q ∧ (q * 5 == 950)%Q) ∧
  avg_order_value (date_filter [mkDate 2025 1 1; mkDate 2025 1 31] sample)
  = Some 0%Q.
Proof.
  split.
  - apply (proj1 (proj2 (C5_avg_order_value sample))). vm_compute. reflexivity.
  - apply (proj2 (proj2 (C5_avg_order_value _))). reflexivity.
Defined.

(** ** Monthly seller churn *)

Lemma period_leb_spec (a b : Period) :
  period_leb a b = true ↔ period_lt a b ∨ a = b.
Proof.
  unfold period_leb, period_lt. destruct a as [ya ma], b as [yb mb]. simpl.
  destruct (Z.ltb_spec ya yb); [intuition lia|].
  destruct (Z.ltb_spec yb ya).
  - split; [discriminate|]. intros [?|[= ? ?]]; lia.
  - rewrite Z.leb_le. split.
    + intros Hm. destruct (decide (ma = mb)) as [->|].
      * right. f_equal. lia.
      * left. lia.
    + intros [?|[= ? ?]]; lia.
Qed.

Lemma period_leb_total : Total (fun a b => Is_true (period_leb a b)).
Proof.
  intros a b. rewrite !Is_true_true, !period_leb_spec. unfold period_lt.
  destruct a as [ya ma], b as [yb mb]. simpl.
  destruct (decide (ya = yb)) as [->|]; [|lia].
  destruct (decide (ma = mb)) as [->|]; [auto|lia].
Qed.

Lemma period_leb_trans :
  Transitive (fun a b => Is_true (period_leb a b)).
Proof.
  intros a b c. rewrite !Is_true_true, !period_leb_spec. unfold period_lt.
  intros [?| ->] [?| ->]; auto. left. lia.
Qed.

Lemma elem_of_periods (df : DataFrame) (p : Period) :
  p ∈ periods df ↔ ∃ r, r ∈ rows df ∧ order_month r = p.
Proof.
  unfold periods, sorted. rewrite merge_sort_Permutation, elem_of_remove_dups.
  change (map order_month (rows df)) with (order_month <$> rows df).
  rewrite list_elem_of_fmap. split.
  - intros (r & -> & Hr). eauto.
  - intros (r & Hr & <-). eauto.
Qed.



(** The loop over the indices [1 .. len-1] visits the consecutive pairs. *)
Lemma consecutive_loop_shift {A B} (f : A → A → B) (a : A) (ps : list A)
    (m k : nat) :
  (1 ≤ k)%nat →
  omap (fun i => prev ← (a :: ps) !! (i - 1)%nat;
                 curr ← (a :: ps) !! i; Some (f prev curr))
       (seq (S k) m)
  = omap (fun i => prev ← ps !! (i - 1)%nat; curr ← ps !! i;
                   Some (f prev curr))
         (seq k m).
Proof.
  revert k. induction m as [|m IHm]; intros k Hk; [done|].
  cbn [seq omap list_omap]. rewrite (IHm (S k)) by lia.
  destruct k as [|k]; [lia|].
  replace (S (S k) - 1)%nat with (S k) by lia.
  replace (S k - 1)%nat with k by lia. done.
Qed.

Lemma consecutive_loop {A B} (f : A → A → B) (ps : list A) :
  omap (fun i => prev ← ps !! (i - 1)%nat; curr ← ps !! i; Some (f prev curr))
       (seq 1 (length ps - 1))
  = map (fun pc => f (fst pc) (snd pc)) (zip ps (tail ps)).
Proof.
  induction ps as [|a ps IH]; [done|].
  destruct ps as [|b ps]; [done|].
  change (length (a :: b :: ps) - 1)%nat with (S (length ps)).
  change (length (b :: ps) - 1)%nat with (length ps - 0)%nat in IH.
  rewrite Nat.sub_0_r in IH.
  cbn [seq]. cbn [omap list_omap].
  rewrite consecutive_loop_shift by lia. rewrite IH. done.
Qed.



(** C1 fails on a file whose seller column is empty throughout.  No
    order names a seller, so no seller of January is missing in February;
    yet the loop reports -2 for February and for March: the set of a month
    holds one [NaN] for each of its orders, and no [NaN] of one month is
    found in the set of the next. *)
Lemma C1_counterexample :
  omap seller (rows nameless) = [] ∧
  periods nameless = [mkPeriod 2024 1; mkPeriod 2024 2; mkPeriod 2024 3] ∧
  churn_data_float64 nameless
  = [(mkPeriod 2024 2, -2); (mkPeriod 2024 3, -2)].
Proof. repeat split; by vm_compute. Qed.

(** The scenario of the specification: months 2024-01, 2024-02, 2024-03
    with sellers {A, B}, {B, C}, {C}. *)
Example churn_data_sample :
  churn_data sample = [(mkPeriod 2024 2, -1); (mkPeriod 2024 3, -1)].
Proof. vm_compute. reflexivity. Qed.

(** ** Sorting routines and the contract of [sort_values] *)

Lemma insert_desc_perm {A} (key : A → Z) (x : A) (l : list A) :
  insert_desc key x l ≡ₚ x :: l.
Proof.
  induction l as [|y l IH]; simpl; [done|].
  destruct (key y <=? key x); [done|].
  rewrite IH. apply Permutation_swap.
Qed.

Lemma insert_desc_sorted {A} (key : A → Z) (x : A) (l : list A) :
  Sorted (fun u v => key v <= key u) l →
  Sorted (fun u v => key v <= key u) (insert_desc key x l).
Proof.
  induction 1 as [|y l Hl IH Hhd]; simpl.
  - repeat constructor.
  - destruct (Z.leb_spec (key y) (key x)) as [E|E].
    + constructor; [by constructor|]. by constructor.
    + constructor; [done|].
      destruct Hhd as [|z l Hz]; simpl; [constructor; lia|].
      destruct (key z <=? key x); constructor; lia.
Qed.

Lemma stable_sort_desc_contract : sort_contract stable_sort_desc.
Proof.
  intros A key l. unfold stable_sort_desc.
  induction l as [|x l [IHp IHs]]; simpl.
  - split; [done | constructor].
  - split; [by rewrite insert_desc_perm, IHp | by apply insert_desc_sorted].
Qed.

(** ** Grouped sums *)

Lemma sum_Z_perm (l1 l2 : list Z) : l1 ≡ₚ l2 → sum_Z l1 = sum_Z l2.
Proof. induction 1; simpl; lia. Qed.

Lemma sum_Z_pick {K} `{EqDecision K} (k0 : K) (v : Z) (g : K → Z)
    (ks : list K) :
  NoDup ks → k0 ∈ ks →
  sum_Z (map (fun k => (if decide (k0 = k) then v else 0) + g k) ks)
  = v + sum_Z (map g ks).
Proof.
  induction 1 as [|k ks Hk Hnd IH]; intros Hin.
  - by apply elem_of_nil in Hin.
  - simpl. apply elem_of_cons in Hin as [->|Hin].
    + rewrite decide_True by done.
      assert (Hrest : sum_Z (map (fun k' => (if decide (k = k') then v else 0) + g k') ks)
                      = sum_Z (map g ks)).
      { f_equal. apply map_ext_in. intros k' Hk'%list_elem_of_In.
        rewrite decide_False; [lia|]. by intros ->. }
      rewrite Hrest. lia.
    + rewrite decide_False by (by intros <-). rewrite IH by done. lia.
Qed.

(** Summing a column group by group gives its sum over the rows that have
    a key, provided every key is listed once. *)
Lemma grouped_sum {K} `{EqDecision K} (key : Row → option K) (val : Row → Z)
    (ks : list K) (rs : list Row) :
  NoDup ks → (∀ r k, r ∈ rs → key r = Some k → k ∈ ks) →
  sum_Z (map (fun k => sum_Z (map val
                (List.filter (fun r => bool_decide (key r = Some k)) rs))) ks)
  = sum_Z (map val (List.filter (fun r => bool_decide (is_Some (key r))) rs)).
Proof.
  intros Hnd. induction rs as [|r rs IH]; intros Hcover.
  - simpl. clear. induction ks as [|k ks IHk]; simpl; lia.
  - assert (IH' := IH (fun r' k Hr' => Hcover r' k (list_elem_of_further _ _ _ Hr'))).
    clear IH. cbn [List.filter]. destruct (key r) as [k0|] eqn:Hk0.
    + rewrite bool_decide_eq_true_2 by eauto. cbn [map sum_Z foldr].
      fold (sum_Z (map val (List.filter (fun r => bool_decide (is_Some (key r))) rs))).
      rewrite <- IH'.
      rewrite <- (sum_Z_pick k0 (val r)) by eauto using list_elem_of_here.
      f_equal. apply map_ext. intros k.
      destruct (decide (k0 = k)) as [->|Hne].
      * by rewrite bool_decide_eq_true_2.
      * rewrite bool_decide_eq_false_2 by congruence. simpl. lia.
    + rewrite (bool_decide_eq_false_2 (is_Some None)) by apply is_Some_None.
      rewrite <- IH'. reflexivity.
Qed.

Lemma groupby_keys {K} `{EqDecision K} (leb : K → K → bool)
    (key : Row → option K) (rs : list Row) :
  map fst (groupby leb key rs) ≡ₚ remove_dups (omap key rs).
Proof.
  unfold groupby, sorted. rewrite map_map. simpl. rewrite map_id.
  apply merge_sort_Permutation.
Qed.

Lemma groupby_group {K} `{EqDecision K} (leb : K → K → bool)
    (key : Row → option K) (rs : list Row) (g : K * list Row) :
  g ∈ groupby leb key rs →
  snd g = List.filter (fun r => bool_decide (key r = Some (fst g))) rs.
Proof.
  unfold groupby. change (map ?f ?l) with (f <$> l).
  rewrite list_elem_of_fmap. by intros (k & -> & _).
Qed.

Lemma groupby_sum {K} `{EqDecision K} (leb : K → K → bool)
    (key : Row → option K) (val : Row → Z) (rs : list Row) :
  sum_Z (map (fun g => sum_Z (map val (snd g))) (groupby leb key rs))
  = sum_Z (map val (List.filter (fun r => bool_decide (is_Some (key r))) rs)).
Proof.
  unfold groupby. rewrite map_map. simpl.
  apply grouped_sum.
  - unfold sorted. rewrite merge_sort_Permutation. apply NoDup_remove_dups.
  - intros r k Hr Hk. unfold sorted.
    rewrite merge_sort_Permutation, elem_of_remove_dups, list_elem_of_omap.
    eauto.
Qed.

(** ** Sums of int64 cells *)

Lemma wrap64_small (z : Z) : - 2 ^ 63 <= z < 2 ^ 63 → wrap64 z = z.
Proof. intros Hz. unfold wrap64. rewrite Z.mod_small; lia. Qed.

Lemma wrap64_add_l (a x : Z) : wrap64 (wrap64 a + x) = wrap64 (a + x).
Proof.
  unfold wrap64. f_equal.
  replace ((a + 2 ^ 63) mod 2 ^ 64 - 2 ^ 63 + x + 2 ^ 63)
    with ((a + 2 ^ 63) mod 2 ^ 64 + x) by lia.
  rewrite Zplus_mod_idemp_l. f_equal. lia.
Qed.

(** Adding int64 cells one by one gives the sum modulo 2^64. *)
Lemma Series_sum_wrap (l : list Z) : Series_sum l = wrap64 (sum_Z l).
Proof.
  unfold Series_sum. change 0 with (wrap64 0) at 1.
  replace (sum_Z l) with (0 + sum_Z l) by lia.
  generalize 0 as a. induction l as [|x l IH]; intros a; simpl.
  - f_equal. lia.
  - rewrite wrap64_add_l, IH. f_equal. lia.
Qed.

Lemma sum_Z_abs (l : list Z) : Z.abs (sum_Z l) <= sum_Z (map Z.abs l).
Proof. induction l as [|x l IH]; simpl; lia. Qed.

Lemma sum_Z_abs_nonneg {A} (val : A → Z) (l : list A) :
  0 <= sum_Z (map (fun r => Z.abs (val r)) l).
Proof. induction l as [|x l IH]; simpl; lia. Qed.

Lemma sum_Z_abs_filter {A} (val : A → Z) (p : A → bool) (l : list A) :
  sum_Z (map (fun r => Z.abs (val r)) (List.filter p l))
  <= sum_Z (map (fun r => Z.abs (val r)) l).
Proof.
  induction l as [|x l IH]; simpl; [lia|].
  destruct (p x); simpl; lia.
Qed.

(** Below the bound the int64 sum is the sum. *)
Lemma Series_sum_exact {A} (val : A → Z) (l : list A) :
  sum_Z (map (fun r => Z.abs (val r)) l) < 2 ^ 53 →
  Series_sum (map val l) = sum_Z (map val l).
Proof.
  intros Hb. rewrite Series_sum_wrap. apply wrap64_small.
  pose proof (sum_Z_abs (map val l)) as Habs. rewrite map_map in Habs.
  assert (2 ^ 53 < 2 ^ 63) by (by vm_compute). lia.
Qed.

Lemma Series_sum_filter_exact (val : Row → Z) (p : Row → bool)
    (df : DataFrame) :
  exact_sums val df →
  Series_sum (map val (List.filter p (rows df)))
  = sum_Z (map val (List.filter p (rows df))).
Proof.
  intros Hb. apply Series_sum_exact.
  pose proof (sum_Z_abs_filter val p (rows df)). unfold exact_sums in Hb. lia.
Qed.

Lemma total_sales_exact (df : DataFrame) :
  exact_sums paid df → total_sales df = sum_Z (map paid (rows df)).
Proof. intros Hb. by apply Series_sum_exact. Qed.

(** Below the bound the sums of the groups are the sums. *)
Lemma groupby_Series_sum {K} `{EqDecision K} (leb : K → K → bool)
    (key : Row → option K) (val : Row → Z) (df : DataFrame) :
  exact_sums val df →
  map (fun g => Series_sum (map val (snd g))) (groupby leb key (rows df))
  = map (fun g => sum_Z (map val (snd g))) (groupby leb key (rows df)).
Proof.
  intros Hb. apply map_ext_in. intros g Hg%list_elem_of_In.
  rewrite (groupby_group _ _ _ _ Hg). by apply Series_sum_filter_exact.
Qed.

(** ** The product ranking *)

Lemma filter_all {A} (p : A → bool) (l : list A) :
  (∀ x, p x = true) → List.filter p l = l.
Proof.
  intros Hp. induction l as [|x l IH]; simpl; [done|]. by rewrite Hp, IH.
Qed.

(** C7, as the code has it.  Whatever routine sorts the table, as long
    as it meets the contract of [sort_values]: the ranking is in descending
    order of revenue; it has one line per product of the view; the share
    of a line is the float64 quotient of its revenue by the total sales of
    this view, times 100.  When the amounts are whole numbers whose
    magnitudes add up to less than 2^53, the revenues of the ranking add up
    to the total-sales KPI of the same view, which is the sum of the
    amounts, and the revenue of a line is the sum over the rows of its
    product; likewise for the quantities. *)
Theorem C7_product_ranking
    (sort_values_desc : ∀ A : Type, (A → Z) → list A → list A)
    (df : DataFrame) :
  sort_contract sort_values_desc →
  Sorted (fun a b => pr_revenue b <= pr_revenue a)
         (prod_rank sort_values_desc df) ∧
  NoDup (map pr_product (prod_rank sort_values_desc df)) ∧
  (∀ r, r ∈ rows df →
        product r ∈ map pr_product (prod_rank sort_values_desc df)) ∧
  (∀ p, p ∈ prod_rank sort_values_desc df →
        pr_share p = share (pr_revenue p) (total_sales df)) ∧
  (exact_sums paid df →
     sum_Z (map pr_revenue (prod_rank sort_values_desc df)) = total_sales df ∧
     total_sales df = sum_Z (map paid (rows df)) ∧
     ∀ p, p ∈ prod_rank sort_values_desc df →
       pr_revenue p
       = sum_Z (map paid
           (List.filter (fun r => bool_decide (product r = pr_product p))
                        (rows df)))) ∧
  (exact_sums quantity df →
     ∀ p, p ∈ prod_rank sort_values_desc df →
       pr_quantity p
       = sum_Z (map quantity
           (List.filter (fun r => bool_decide (product r = pr_product p))
                        (rows df)))).
Proof.
  intros Hsort. unfold prod_rank.
  set (groups := groupby String.leb (fun r => Some (product r)) (rows df)).
  set (agg := map (fun g => (fst g, Series_sum (map quantity (snd g)),
                             Series_sum (map paid (snd g)))) groups).
  destruct (Hsort _ (@snd (string * Z) Z) agg) as [Hperm Hsorted].
  set (sorted_agg := sort_values_desc _ snd agg) in *.
  set (mk := fun a : string * Z * Z =>
               {| pr_product := fst (fst a); pr_quantity := snd (fst a);
                  pr_revenue := snd a;
                  pr_share := share (snd a) (total_sales df) |}).
  assert (Hkeys : map pr_product (map mk sorted_agg)
                  ≡ₚ remove_dups (map product (rows df))).
  { rewrite map_map. simpl.
    change (map (fun a => fst (fst a)) sorted_agg)
      with ((fun a : string * Z * Z => fst (fst a)) <$> sorted_agg).
    rewrite Hperm. unfold agg. change (?f <$> map ?g ?l) with (map f (map g l)).
    rewrite map_map. simpl.
    change (map (fun g => fst g) groups) with (map fst groups).
    unfold groups. rewrite groupby_keys.
    replace (omap (fun r => Some (product r)) (rows df))
      with (map product (rows df)); [done|].
    clear. induction (rows df) as [|r l IH]; [done|].
    cbn [map omap list_omap]. by f_equal. }
  assert (Hline : ∀ p, p ∈ map mk sorted_agg →
    ∃ g, g ∈ groups ∧ pr_product p = fst g ∧
         pr_quantity p = Series_sum (map quantity (snd g)) ∧
         pr_revenue p = Series_sum (map paid (snd g)) ∧
         snd g = List.filter (fun r => bool_decide (product r = pr_product p))
                             (rows df)).
  { intros p Hp. change (map mk sorted_agg) with (mk <$> sorted_agg) in Hp.
    apply list_elem_of_fmap in Hp as (a & -> & Ha).
    rewrite Hperm in Ha. unfold agg in Ha.
    change (map ?f ?l) with (f <$> l) in Ha.
    apply list_elem_of_fmap in Ha as (g & -> & Hg).
    exists g. repeat split; [done|]. simpl.
    rewrite (groupby_group _ _ _ _ Hg). clear.
    induction (rows df) as [|r l IH]; simpl; [done|].
    rewrite IH. destruct (decide (product r = fst g)) as [He|Hne].
    - by rewrite !bool_decide_eq_true_2 by congruence.
    - by rewrite !bool_decide_eq_false_2 by congruence. }
  split; [|split; [|split; [|split; [|split]]]].
  - change (map mk sorted_agg) with (mk <$> sorted_agg).
    eapply Sorted_fmap; [|exact Hsorted]. by intros x y Hxy.
  - rewrite Hkeys. apply NoDup_remove_dups.
  - intros r Hr. rewrite Hkeys, elem_of_remove_dups.
    change (map product (rows df)) with (product <$> rows df).
    apply list_elem_of_fmap. eauto.
  - intros p Hp. change (map mk sorted_agg) with (mk <$> sorted_agg) in Hp.
    by apply list_elem_of_fmap in Hp as (a & -> & _).
  - intros Hb. split; [|split; [by apply total_sales_exact|]].
    + rewrite map_map. simpl.
      change (map (fun a => snd a) sorted_agg) with (snd <$> sorted_agg).
      rewrite (sum_Z_perm _ (snd <$> agg)) by (by rewrite Hperm).
      unfold agg. change (?f <$> map ?g ?l) with (map f (map g l)).
      rewrite map_map. simpl. unfold groups.
      rewrite (groupby_Series_sum _ _ paid) by done.
      rewrite groupby_sum, total_sales_exact by done.
      rewrite filter_all; [done|]. intros r. apply bool_decide_eq_true. eauto.
    + intros p Hp. destruct (Hline p Hp) as (g & _ & _ & _ & -> & ->).
      by apply Series_sum_filter_exact.
  - intros Hb p Hp. destruct (Hline p Hp) as (g & _ & _ & -> & _ & ->).
    by apply Series_sum_filter_exact.
Qed.

Lemma C7_product_ranking_witness :
  sum_Z (map pr_revenue (prod_rank stable_sort_desc sample))
  = total_sales sample.
Proof.
  apply (C7_product_ranking stable_sort_desc sample stable_sort_desc_contract).
  by vm_compute.
Defined.

(** C7, as it is worded, fails on amounts with decimals.  On three orders
    of 0.2, 0.1 and 0.3, the second for another product than the first and
    the third, the total-sales KPI is 0.6000000000000001: the float64 sum
    of the three in frame order, from the left as from the right.  The
    ranking has 0.1 for one product and 0.5 for the other, and these add up
    to 0.6 in either order. *)
Lemma C7_counterexample :
  total_sales_float64 decimals = 0x1.3333333333334p-1%float ∧
  foldr PrimFloat.add 0%float (map snd decimals)
  = 0x1.3333333333334p-1%float ∧
  revenue_by_product_float64 decimals
  = [ ("Hallabong"%string, 0x1.999999999999ap-4%float);
      ("Tangerine"%string, 0x1p-1%float) ] ∧
  Series_sum_float64 [0x1p-1; 0x1.999999999999ap-4]%float
  = 0x1.3333333333333p-1%float ∧
  Series_sum_float64 [0x1.999999999999ap-4; 0x1p-1]%float
  = 0x1.3333333333333p-1%float ∧
  0x1.3333333333333p-1%float ≠ 0x1.3333333333334p-1%float.
Proof.
  split; [by vm_compute|]. split; [by vm_compute|].
  split; [by vm_compute|]. split; [by vm_compute|]. split; [by vm_compute|].
  intros E. apply (f_equal Prim2SF) in E. vm_compute in E. discriminate.
Qed.

(** The shares follow the view: on the orders of the channel "app" alone
    the only product has the whole of the 500 won sold there. *)
Example prod_rank_share_of_view :
  map (fun p => (pr_product p, pr_share p))
      (prod_rank stable_sort_desc (channel_filter ["app"%string] sample))
  = [("Hallabong"%string, Z_to_float 100)].
Proof. vm_compute. reflexivity. Qed.

Example prod_rank_sample :
  map (fun p => (pr_product p, pr_quantity p, pr_revenue p))
      (prod_rank stable_sort_desc sample)
  = [("Hallabong"%string, 5, 500); ("Tangerine"%string, 5, 450)].
Proof. vm_compute. reflexivity. Qed.

(** ** The VIP table *)

Lemma sort_contract_strongly
    (sort_values_desc : ∀ A : Type, (A → Z) → list A → list A) :
  sort_contract sort_values_desc →
  ∀ (A : Type) (key : A → Z) (l : list A),
    StronglySorted (fun a b => key b <= key a) (sort_values_desc A key l).
Proof.
  intros Hsort A key l. apply Sorted_StronglySorted; [|apply Hsort].
  intros x y z ? ?. lia.
Qed.

Lemma vip_groups_uids (df : DataFrame) :
  map vip_uid (vip_groups df) ≡ₚ remove_dups (map uid (rows df)).
Proof.
  unfold vip_groups. rewrite map_map. simpl.
  change (map (fun g => fst g) ?l) with (map fst l). rewrite groupby_keys.
  replace (omap (fun r => Some (uid r)) (rows df)) with (map uid (rows df));
    [done|].
  induction (rows df) as [|r l IH]; [done|].
  cbn [map omap list_omap]. by f_equal.
Qed.

(** X27.  Whatever routine sorts the table, as long as it meets the
    contract of [sort_values]: the VIP table has as many lines as there
    are distinct customers, capped at 20, so exactly 20 when there are at
    least 20 customers; it is in descending order of order count; its
    lines are lines of the per-customer table, each customer appearing
    once with the count of the order numbers of that customer's rows; and
    no customer left out has more orders than one listed.  Nothing is said
    of the order among customers of equal count. *)
Theorem vip_table_spec
    (sort_values_desc : ∀ A : Type, (A → Z) → list A → list A)
    (df : DataFrame) :
  sort_contract sort_values_desc →
  length (vip_df sort_values_desc df)
  = (20 `min` length (remove_dups (map uid (rows df))))%nat ∧
  (length (vip_df sort_values_desc df) ≤ 20)%nat ∧
  ((20 ≤ length (remove_dups (map uid (rows df))))%nat →
   length (vip_df sort_values_desc df) = 20%nat) ∧
  Sorted (fun a b => vip_orders b <= vip_orders a)
         (vip_df sort_values_desc df) ∧
  NoDup (map vip_uid (vip_groups df)) ∧
  (∀ v, v ∈ vip_groups df →
        vip_orders v
        = count_cells (map order_no
            (List.filter (fun r => bool_decide (uid r = vip_uid v)) (rows df)))) ∧
  (∀ v, v ∈ vip_df sort_values_desc df → v ∈ vip_groups df) ∧
  (∀ v w, v ∈ vip_df sort_values_desc df → w ∈ vip_groups df →
          w ∉ vip_df sort_values_desc df → vip_orders w <= vip_orders v).
Proof.
  intros Hsort. unfold vip_df.
  destruct (Hsort _ vip_orders (vip_groups df)) as [Hperm Hsorted].
  pose proof (sort_contract_strongly _ Hsort _ vip_orders (vip_groups df))
    as Hstrong.
  set (sorted_groups := sort_values_desc Vip vip_orders (vip_groups df)) in *.
  assert (Hlen : length (take 20 sorted_groups)
                 = (20 `min` length (remove_dups (map uid (rows df))))%nat).
  { rewrite length_take, Hperm.
    rewrite <- (length_map vip_uid (vip_groups df)), vip_groups_uids. done. }
  split; [exact Hlen|]. split; [lia|]. split; [lia|].
  split; [|split; [|split; [|split]]].
  - rewrite <- (take_drop 20 sorted_groups) in Hstrong.
    apply StronglySorted_app_1_l in Hstrong.
    by apply StronglySorted_Sorted.
  - rewrite vip_groups_uids. apply NoDup_remove_dups.
  - intros v Hv. unfold vip_groups in Hv.
    change (map ?f ?l) with (f <$> l) in Hv.
    apply list_elem_of_fmap in Hv as (g & -> & Hg).
    apply groupby_group in Hg. simpl. rewrite Hg. do 2 f_equal.
    clear. induction (rows df) as [|r l IH]; simpl; [done|].
    rewrite IH. destruct (decide (uid r = fst g)) as [He|Hne].
    + by rewrite !bool_decide_eq_true_2 by congruence.
    + by rewrite !bool_decide_eq_false_2 by congruence.
  - intros v Hv. rewrite <- Hperm. by apply (subseteq_take 20).
  - intros v w Hv Hw Hnot.
    rewrite <- Hperm, <- (take_drop 20 sorted_groups) in Hw.
    apply elem_of_app in Hw as [Hw|Hw]; [done|].
    rewrite <- (take_drop 20 sorted_groups) in Hstrong.
    apply (StronglySorted_app_1_elem_of _ _ _ _ _ Hstrong Hv Hw).
Qed.

Lemma vip_table_spec_witness : length (vip_df stable_sort_desc crowd) = 20%nat.
Proof.
  apply (vip_table_spec stable_sort_desc crowd stable_sort_desc_contract).
  vm_compute. lia.
Defined.

(** ** The regular expressions of the keyword filter *)

Module ReFacts.
Import Re.

Lemma Matches_Void w : Matches Void w ↔ False.
Proof. split; [inversion 1 | done]. Qed.

Lemma Matches_Eps w : Matches Eps w ↔ w = [].
Proof. split; [by inversion 1 | intros ->; constructor]. Qed.

Lemma Matches_Chr c w : Matches (Chr c) w ↔ ∃ d, w = [d] ∧ lower c = lower d.
Proof.
  split; [inversion 1; eauto | intros (d & -> & ?); by constructor].
Qed.

Lemma Matches_Any w : Matches Any w ↔ ∃ d, w = [d] ∧ d ≠ newline.
Proof.
  split; [inversion 1; eauto | intros (d & -> & ?); by constructor].
Qed.

Lemma Matches_Cat r1 r2 w :
  Matches (Cat r1 r2) w ↔
  ∃ w1 w2, w = w1 ++ w2 ∧ Matches r1 w1 ∧ Matches r2 w2.
Proof.
  split; [inversion 1; eauto | intros (w1 & w2 & -> & ? & ?); by constructor].
Qed.

Lemma Matches_Alt r1 r2 w :
  Matches (Alt r1 r2) w ↔ Matches r1 w ∨ Matches r2 w.
Proof.
  split; [inversion 1; auto | intros [?|?]; by constructor].
Qed.

(** A non-empty match of a repeat starts with a non-empty match of its
    body. *)
Lemma Matches_Star_inv s dw :
  Matches s dw → ∀ r d w, s = Star r → dw = d :: w →
  ∃ w1 w2, w = w1 ++ w2 ∧ Matches r (d :: w1) ∧ Matches (Star r) w2.
Proof.
  induction 1 as [| | | | | | |r' w1 w2 H1 _ H2 IH2]; intros r0 d0 w0 Hs Hdw;
    try discriminate.
  injection Hs as ->. destruct w1 as [|d' w1]; simpl in Hdw.
  - by apply IH2.
  - injection Hdw as -> <-. eauto.
Qed.

Lemma Matches_Star_cons r d w :
  Matches (Star r) (d :: w) ↔
  ∃ w1 w2, w = w1 ++ w2 ∧ Matches r (d :: w1) ∧ Matches (Star r) w2.
Proof.
  split.
  - intros H. by eapply Matches_Star_inv.
  - intros (w1 & w2 & -> & H1 & H2).
    change (d :: w1 ++ w2) with ((d :: w1) ++ w2). by constructor.
Qed.

Lemma nullable_spec r : nullable r = true ↔ Matches r [].
Proof.
  induction r as [| | | |r1 IH1 r2 IH2|r1 IH1 r2 IH2|r IH]; simpl.
  - rewrite Matches_Void. split; [discriminate | done].
  - rewrite Matches_Eps. done.
  - rewrite Matches_Chr. split; [discriminate | by intros (? & ? & ?)].
  - rewrite Matches_Any. split; [discriminate | by intros (? & ? & ?)].
  - rewrite andb_true_iff, IH1, IH2, Matches_Cat. split.
    + intros [? ?]. by exists [], [].
    + intros (w1 & w2 & Hw & ? & ?). symmetry in Hw.
      apply app_eq_nil in Hw as [-> ->]. done.
  - rewrite orb_true_iff, IH1, IH2, Matches_Alt. done.
  - split; [constructor | done].
Qed.

Lemma deriv_spec d r w : Matches (deriv d r) w ↔ Matches r (d :: w).
Proof.
  revert w.
  induction r as [| |c| |r1 IH1 r2 IH2|r1 IH1 r2 IH2|r IH]; intros w; simpl.
  - by rewrite !Matches_Void.
  - rewrite Matches_Void, Matches_Eps. done.
  - rewrite Matches_Chr. destruct (Ascii.eqb_spec (lower c) (lower d)) as [E|E].
    + rewrite Matches_Eps. split.
      * intros ->. eauto.
      * by intros (d' & [= <- ->] & _).
    + rewrite Matches_Void. split; [done|].
      intros (d' & [= <- ->] & ?). done.
  - rewrite Matches_Any. destruct (Ascii.eqb_spec d newline) as [E|E].
    + rewrite Matches_Void. split; [done|].
      intros (d' & [= <- ->] & ?). done.
    + rewrite Matches_Eps. split.
      * intros ->. eauto.
      * by intros (d' & [= <- ->] & _).
  - assert (Hcat : Matches (Cat (deriv d r1) r2) w ↔
                   ∃ w1 w2, w = w1 ++ w2 ∧ Matches r1 (d :: w1) ∧ Matches r2 w2).
    { rewrite Matches_Cat. by setoid_rewrite IH1. }
    rewrite (Matches_Cat r1 r2). destruct (nullable r1) eqn:En.
    + rewrite Matches_Alt, Hcat, IH2. split.
      * intros [(w1 & w2 & -> & ? & ?)|?].
        -- by exists (d :: w1), w2.
        -- exists [], (d :: w). by rewrite <- nullable_spec.
      * intros ([|d' w1] & w2 & Hw & H1 & H2); simpl in Hw.
        -- right. by rewrite Hw.
        -- injection Hw as <- ->. left. eauto.
    + rewrite Hcat. split.
      * intros (w1 & w2 & -> & ? & ?). by exists (d :: w1), w2.
      * intros ([|d' w1] & w2 & Hw & H1 & H2); simpl in Hw.
        -- apply nullable_spec in H1. congruence.
        -- injection Hw as <- ->. eauto.
  - by rewrite !Matches_Alt, IH1, IH2.
  - rewrite Matches_Star_cons, Matches_Cat. by setoid_rewrite IH.
Qed.

Lemma match_prefix_spec r s :
  match_prefix r s = true ↔ ∃ w suf, s = w ++ suf ∧ Matches r w.
Proof.
  revert r. induction s as [|d s IH]; intros r; simpl.
  - rewrite orb_false_r, nullable_spec. split.
    + intros ?. by exists [], [].
    + intros (w & suf & Hw & ?). symmetry in Hw.
      apply app_eq_nil in Hw as [-> _]. done.
  - rewrite orb_true_iff, nullable_spec, IH. split.
    + intros [?|(w & suf & -> & Hw)].
      * by exists [], (d :: s).
      * exists (d :: w), suf. by rewrite <- deriv_spec.
    + intros ([|d' w] & suf & Hw & Hm); simpl in Hw.
      * by left.
      * injection Hw as <- ->. right. exists w, suf. by rewrite deriv_spec.
Qed.

Lemma search_spec r s :
  search r s = true ↔ ∃ w, occurs_in w s ∧ Matches r w.
Proof.
  unfold occurs_in. induction s as [|d s IH]; cbn [search].
  - rewrite orb_false_r, match_prefix_spec. split.
    + intros (w & suf & ? & ?). exists w. split; [by exists [], suf | done].
    + intros (w & (pre & suf & Hs) & ?). symmetry in Hs.
      apply app_eq_nil in Hs as [-> Hs]. simpl in Hs. eauto.
  - rewrite orb_true_iff, match_prefix_spec, IH. split.
    + intros [(w & suf & ? & ?)|(w & (pre & suf & ->) & ?)].
      * exists w. split; [by exists [], suf | done].
      * exists w. split; [by exists (d :: pre), suf | done].
    + intros (w & ([|d' pre] & suf & Hs) & ?); simpl in Hs.
      * left. eauto.
      * injection Hs as <- ->. right. eauto.
Qed.

End ReFacts.

(** ** The keyword filter *)

Module ParseFacts.
Import Re.

Lemma not_special_plain (c : ascii) :
  is_special c = false → Ascii.eqb c ")" = false ∧ Ascii.eqb c "\" = false.
Proof.
  unfold is_special, SPECIAL_CHARS. cbn [list_ascii_of_string existsb].
  intros H. repeat (apply orb_false_iff in H as [? H]). done.
Qed.

Lemma lone_backslash_plain (kw : list ascii) :
  Forall (fun c => is_special c = false) kw → lone_backslash kw = false.
Proof.
  intros [|c rest Hc _]; [done|]. destruct rest; [|done].
  apply (not_special_plain c Hc).
Qed.

Lemma parse_literal (kw : list ascii) (cur : frame) (stack : list frame) :
  Forall (fun c => is_special c = false) kw →
  parse kw cur stack
  = parse [] (fold_left (fun f c => push_item (Chr c) f) kw cur) stack.
Proof.
  intros Hkw. revert cur.
  induction Hkw as [|c kw Hc Hkw IH]; intros cur; [done|].
  cbn [parse fold_left]. destruct (not_special_plain c Hc) as [-> ->].
  rewrite (lone_backslash_plain kw Hkw), Hc. simpl. apply IH.
Qed.

Lemma items_push_literals (kw : list ascii) (cur : frame) :
  fold_left (fun f c => push_item (Chr c) f) kw cur
  = {| alts := alts cur;
       items := rev (map (fun c => (Chr c, false)) kw) ++ items cur |}.
Proof.
  revert cur. induction kw as [|c kw IH]; intros cur; simpl.
  - by destruct cur.
  - rewrite IH. simpl. by rewrite <- app_assoc.
Qed.

Lemma compile_literal (kw : string) :
  Forall (fun c => is_special c = false) (list_ascii_of_string kw) →
  compile kw = Pattern (literal (list_ascii_of_string kw)).
Proof.
  intros Hkw. unfold compile. rewrite parse_literal by done.
  cbn [parse]. f_equal. rewrite items_push_literals.
  unfold close, seq_regex, literal. simpl. rewrite app_nil_r.
  generalize (list_ascii_of_string kw) as l. intros l.
  rewrite <- fold_left_rev_right, rev_involutive.
  induction l as [|c l IH]; simpl; [done|]. by rewrite IH.
Qed.

Lemma Matches_literal (kw w : list ascii) :
  Matches (literal kw) w ↔ map lower w = map lower kw.
Proof.
  revert w. induction kw as [|c kw IH]; intros w; simpl.
  - rewrite ReFacts.Matches_Eps. split; [by intros -> | by destruct w].
  - rewrite ReFacts.Matches_Cat. split.
    + intros (w1 & w2 & -> & H1 & H2).
      apply ReFacts.Matches_Chr in H1 as (d & -> & Hd).
      apply IH in H2. simpl. by rewrite Hd, H2.
    + destruct w as [|d w]; [done|]. simpl. intros [= Hd Hw].
      exists [d], w. split; [done|]. split; [by constructor | by apply IH].
Qed.

End ParseFacts.

Lemma Script_ret_bind {A B} (a : A) (k : A → Script B) : mret a ≫= k = k a.
Proof.
  unfold mret, mbind, Script_ret, Script_bind. by destruct (k a).
Qed.

Lemma zip_with_orb_false (mask : list bool) {A} (l : list A) :
  length mask = length l →
  zip_with orb mask (map (fun _ => false) l) = mask.
Proof.
  revert l. induction mask as [|b mask IH]; intros [|x l] Hlen;
    simpl in *; try done.
  rewrite orb_false_r, IH by lia. done.
Qed.

Lemma zip_with_orb_assoc (mask : list bool) {A} (f g : A → bool) (l : list A) :
  zip_with orb (zip_with orb mask (map f l)) (map g l)
  = zip_with orb mask (map (fun x => f x || g x) l).
Proof.
  revert mask. induction l as [|x l IH]; intros [|b mask]; simpl; try done.
  by rewrite IH, orb_assoc.
Qed.

Lemma mask_loop_pattern (prompt : string) (df : DataFrame) (r : Re.regex)
    (cols : list (Column * (Row → string))) (mask : list bool) :
  Re.compile prompt = Re.Pattern r →
  length mask = length (rows df) →
  mask_loop prompt df cols mask
  = mret (zip_with orb mask (map (row_matches r cols) (rows df))).
Proof.
  intros Hc. revert mask. induction cols as [|col cols IH]; intros mask Hlen.
  - simpl. by rewrite zip_with_orb_false.
  - cbn [mask_loop]. unfold str_contains. rewrite Hc, Script_ret_bind.
    rewrite IH.
    + rewrite map_map, zip_with_orb_assoc. done.
    + rewrite length_zip_with, !length_map. lia.
Qed.

Lemma mask_loop_invalid (prompt : string) (df : DataFrame) (msg : string)
    (cols : list (Column * (Row → string))) (mask : list bool) :
  Re.compile prompt = Re.Invalid msg → cols ≠ [] →
  mask_loop prompt df cols mask = raise (ReError msg).
Proof.
  intros Hc Hcols. destruct cols as [|col cols]; [done|].
  cbn [mask_loop]. unfold str_contains. by rewrite Hc.
Qed.

Lemma boolean_index_mask (df : DataFrame) (p : Row → bool) :
  boolean_index df
    (zip_with orb (replicate (length (rows df)) false) (map p (rows df)))
  = {| columns := columns df; rows := List.filter p (rows df) |}.
Proof.
  unfold boolean_index. f_equal.
  induction (rows df) as [|x l IH]; simpl; [done|].
  destruct (p x); simpl; by rewrite IH.
Qed.

Lemma row_matches_spec (df : DataFrame) (r : Re.regex) (row : Row) :
  row_matches r (valid_cols df) row = true ↔
  some_search_col df (contains_match r) row.
Proof.
  unfold row_matches, some_search_col, contains_match, valid_cols.
  rewrite existsb_exists. split.
  - intros (col & Hcol & Hs). apply filter_In in Hcol as [Hin Hhas].
    exists col. rewrite list_elem_of_In. by apply ReFacts.search_spec in Hs.
  - intros (col & Hin & Hhas & Hs). exists col. rewrite filter_In.
    rewrite <- list_elem_of_In. by apply ReFacts.search_spec in Hs.
Qed.

(** The keyword filter on a keyword that compiles. *)
Lemma keyword_filter_pattern (prompt : string) (df : DataFrame) (r : Re.regex) :
  truthy prompt = true → Re.compile prompt = Re.Pattern r →
  ∃ kept,
    Filtered (some_search_col df (contains_match r)) (rows df) kept ∧
    keyword_filter prompt df = keyword_outcome prompt df kept.
Proof.
  intros Ht Hc.
  exists (List.filter (row_matches r (valid_cols df)) (rows df)). split.
  - apply Filtered_filter. intros row. apply row_matches_spec.
  - unfold keyword_filter, keyword_outcome. rewrite Ht.
    rewrite (mask_loop_pattern _ _ r) by (done || by rewrite length_replicate).
    rewrite Script_ret_bind, boolean_index_mask.
    by destruct (df_empty _).
Qed.

Lemma Filtered_ext {A} (P Q : A → Prop) (l l' : list A) :
  (∀ x, P x ↔ Q x) → Filtered P l l' → Filtered Q l l'.
Proof.
  intros HPQ. induction 1; constructor; try done; by rewrite <- HPQ.
Qed.

Lemma some_search_col_ext (df : DataFrame) (P Q : string → Prop) (row : Row) :
  (∀ t, P t ↔ Q t) → some_search_col df P row ↔ some_search_col df Q row.
Proof.
  intros HPQ. unfold some_search_col.
  split; intros (col & ? & ? & HP); exists col; apply HPQ in HP; done.
Qed.


Lemma valid_cols_channel (df : DataFrame) :
  has_col df Channel = true → valid_cols df ≠ [].
Proof.
  intros Hc Hnil.
  assert (Hin : In (Channel, channel) (valid_cols df)).
  { unfold valid_cols. apply filter_In. split; [|done].
    unfold search_cols. simpl. auto 10. }
  rewrite Hnil in Hin. done.
Qed.

(** The keyword filter for any engine. *)

Lemma mask_loop_with_pattern (E : Engine) (prompt : string) (df : DataFrame)
    (p : re_pattern E) (cols : list (Column * (Row → string)))
    (mask : list bool) :
  re_compile E prompt = Compiles p →
  length mask = length (rows df) →
  mask_loop_with E prompt df cols mask
  = mret (zip_with orb mask
            (map (fun row => existsb (fun col => re_search E p (snd col row)) cols)
                 (rows df))).
Proof.
  intros Hc. revert mask. induction cols as [|col cols IH]; intros mask Hlen.
  - simpl. by rewrite zip_with_orb_false.
  - cbn [mask_loop_with]. unfold str_contains_with.
    rewrite Hc, Script_ret_bind. rewrite IH.
    + rewrite map_map, zip_with_orb_assoc. done.
    + rewrite length_zip_with, !length_map. lia.
Qed.


Lemma keyword_filter_with_pattern (E : Engine) (prompt : string)
    (df : DataFrame) (p : re_pattern E) :
  truthy prompt = true → re_compile E prompt = Compiles p →
  ∃ kept,
    Filtered (some_search_col df (fun text => re_search E p text = true))
             (rows df) kept ∧
    keyword_filter_with E prompt df = keyword_outcome prompt df kept.
Proof.
  intros Ht Hc.
  exists (List.filter
            (fun row => existsb (fun col => re_search E p (snd col row))
                                (valid_cols df))
            (rows df)).
  split.
  - apply Filtered_filter. intros row.
    unfold some_search_col, valid_cols. rewrite existsb_exists. split.
    + intros (col & Hcol & Hs). apply filter_In in Hcol as [Hin Hhas].
      exists col. by rewrite list_elem_of_In.
    + intros (col & Hin & Hhas & Hs). exists col. rewrite filter_In.
      by rewrite <- list_elem_of_In.
  - unfold keyword_filter_with, keyword_outcome. rewrite Ht.
    rewrite (mask_loop_with_pattern _ _ _ p)
      by (done || by rewrite length_replicate).
    rewrite Script_ret_bind, boolean_index_mask.
    by destruct (df_empty _).
Qed.

(** With [Re] as the engine it is the filter [keyword_filter]. *)
Lemma keyword_filter_with_Re (prompt : string) (df : DataFrame) :
  keyword_filter_with Re_engine prompt df = keyword_filter prompt df.
Proof.
  unfold keyword_filter_with, keyword_filter.
  destruct (truthy prompt); [|done]. f_equal.
  generalize (replicate (length (rows df)) false) as mask.
  induction (valid_cols df) as [|col cols IH]; intros mask; [done|].
  cbn [mask_loop_with mask_loop].
  unfold str_contains_with, str_contains. cbn [re_compile re_search Re_engine].
  destruct (Re.compile prompt); try done.
  rewrite !Script_ret_bind. apply IH.
Qed.



(** A keyword with an alternative and two wildcards: it finds the orders
    sent to Seoul and to Jeju. *)
Example keyword_filter_regex :
  keyword_filter "seo.l|je.u" sample
  = ([ONotice (SuccessFound "seo.l|je.u" 3)],
     Done {| columns := all_columns; rows := [row1; row2; row3] |}).
Proof. vm_compute. reflexivity. Qed.




Example keyword_filter_ignores_case :
  keyword_filter "JEJU" sample
  = ([ONotice (SuccessFound "JEJU" 2)],
     Done {| columns := all_columns; rows := [row2; row3] |}).
Proof. vm_compute. reflexivity. Qed.

Example keyword_filter_korean :
  keyword_filter "감귤" orders_kr
  = ([ONotice (SuccessFound "감귤" 1)],
     Done {| columns := all_columns;
             rows := [order 2024 1 5 "카카오톡" 100 1 "제주 감귤 5kg" "서울"
                            "u1" "n1" "A"] |}).
Proof. vm_compute. reflexivity. Qed.


(** ** The script as a whole *)

Lemma before_keyword_columns (raw_df : DataFrame) (date_range : list Date)
    (selected_channels : list string) (event_checkbox : bool) :
  columns (before_keyword raw_df date_range selected_channels event_checkbox)
  = columns raw_df.
Proof.
  unfold before_keyword, event_filter, channel_filter, date_filter.
  destruct (_ && has_col _ _); destruct selected_channels;
    destruct date_range as [|? [|? [|? ?]]]; reflexivity.
Qed.

Lemma has_col_columns (df df' : DataFrame) (c : Column) :
  columns df = columns df' → has_col df c = has_col df' c.
Proof. unfold has_col. by intros ->. Qed.

Lemma Filtered_none {A} (P : A → Prop) (l : list A) :
  (∀ x, x ∈ l → ¬ P x) → Filtered P l [].
Proof.
  induction l as [|x l IH]; intros H; constructor.
  - apply H. by left.
  - apply IH. intros y Hy. apply H. by right.
Qed.

(** The script from the sidebar notices on, once the keys are read, the
    file is loaded and the sidebar has found its two columns. *)
Lemma before_tabs_loaded (E : Engine) (h : Host) (w : Widgets)
    (keys : option string * option string) (raw_df : DataFrame) :
  read_api_keys h = mret keys → h_file h = Some raw_df →
  df_empty raw_df = false →
  has_col raw_df OrderDate = true → has_col raw_df Channel = true →
  before_tabs E h w
  = (notify (InfoUpdated (h_today h));;
     notify (api_status (fst keys));;
     df_filtered ← keyword_filter_with E (w_prompt w)
       (before_keyword raw_df (w_dates w) (w_channels w) (w_event w));
     kpi_section df_filtered;;
     mret df_filtered).
Proof.
  intros Hk Hf Hne Hd Hc. unfold before_tabs, load_data.
  rewrite Hk, Script_ret_bind, Hf, Script_ret_bind, Hne. unfold require_col.
  rewrite Hd, Script_ret_bind, Hc, Script_ret_bind. reflexivity.
Qed.

(** C4, as the code has it.  Once line 52 has read the API keys: a
    missing data file shows the load error and stops the script before
    anything else; a table without rows stops it too.  With a keyword that
    the engine finds in no row of the view the script shows, after the two
    notices of the sidebar, the no-results warning, a notice other than the
    load error, and stops: no KPI and no table is computed.  Without a
    keyword a view with no rows is not signalled: the KPIs are computed on
    zero rows and shown, and the view goes on to the tabs. *)
Theorem C4_empty_result_and_load_failure
    (sort_values_desc : ∀ A : Type, (A → Z) → list A → list A)
    (E : Engine) (h : Host) (w : Widgets)
    (keys : option string * option string) (raw_df : DataFrame) :
  read_api_keys h = mret keys →
  let view :=
    before_keyword raw_df (w_dates w) (w_channels w) (w_event w) in
  let sidebar :=
    [ONotice (InfoUpdated (h_today h)); ONotice (api_status (fst keys))] in
  (h_file h = None →
   dashboard sort_values_desc E h w = ([ONotice ErrDataFileNotFound], Stop)) ∧
  (h_file h = Some raw_df → df_empty raw_df = true →
   dashboard sort_values_desc E h w = ([], Stop)) ∧
  (h_file h = Some raw_df → df_empty raw_df = false →
   has_col raw_df OrderDate = true → has_col raw_df Channel = true →
   truthy (w_prompt w) = true →
   ∀ p, re_compile E (w_prompt w) = Compiles p →
   (∀ row, row ∈ rows view →
      ¬ some_search_col view (fun text => re_search E p text = true) row) →
   dashboard sort_values_desc E h w
   = (sidebar ++ [ONotice (WarnNoResults (w_prompt w))], Stop)) ∧
  ONotice (WarnNoResults (w_prompt w)) ≠ ONotice ErrDataFileNotFound ∧
  (h_file h = Some raw_df → df_empty raw_df = false →
   has_col raw_df OrderDate = true → has_col raw_df Channel = true →
   has_col raw_df PaidAmount = true →
   w_prompt w = EmptyString → rows view = [] →
   before_tabs E h w
   = (sidebar ++ [OMetrics 0 0 (Some 0%Q) (avg_margin view)], Done view)).
Proof.
  intros Hk view sidebar.
  split; [|split; [|split; [|split; [done|]]]].
  - intros Hf. unfold dashboard, before_tabs, load_data.
    by rewrite Hk, Script_ret_bind, Hf.
  - intros Hf He. unfold dashboard, before_tabs, load_data.
    by rewrite Hk, Script_ret_bind, Hf, Script_ret_bind, He.
  - intros Hf Hne Hd Hc Ht p Hp Hnone. unfold dashboard.
    rewrite (before_tabs_loaded E h w keys raw_df) by done. fold view.
    destruct (keyword_filter_with_pattern E _ view p Ht Hp)
      as (kept & Hkept & ->).
    rewrite (Filtered_unique _ _ _ _ Hkept (Filtered_none _ _ Hnone)).
    unfold keyword_outcome.
    replace (df_empty _) with true; [reflexivity|].
    unfold df_empty. simpl. by destruct (columns view).
  - intros Hf Hne Hd Hc Hp Hprompt Hrows.
    rewrite (before_tabs_loaded E h w keys raw_df) by done. fold view.
    rewrite Hprompt.
    change (keyword_filter_with E EmptyString view)
      with (mret view : Script DataFrame).
    rewrite Script_ret_bind. unfold kpi_section, require_col.
    rewrite (has_col_columns view raw_df) by apply before_keyword_columns.
    rewrite Hp.
    unfold avg_order_value, total_sales, total_orders. rewrite Hrows.
    reflexivity.
Qed.

Lemma C4_empty_result_witness :
  dashboard stable_sort_desc Re_engine (host_with None)
            (widgets whole_range "zzz")
  = ([ONotice ErrDataFileNotFound], Stop) ∧
  dashboard stable_sort_desc Re_engine host (widgets whole_range "zzz")
  = ([ONotice (InfoUpdated (mkDate 2024 4 1)); ONotice WarnApiKeyNotFound;
      ONotice (WarnNoResults "zzz")],
     Stop) ∧
  before_tabs Re_engine host
              {| w_dates := whole_range;
                 w_channels := ["web"; "app"; "kakao"]%string;
                 w_event := true; w_prompt := EmptyString |}
  = ([ONotice (InfoUpdated (mkDate 2024 4 1)); ONotice WarnApiKeyNotFound;
      OMetrics 0 0 (Some 0%Q) None],
     Done {| columns := all_columns; rows := [] |}).
Proof.
  split; [|split].
  - by apply (C4_empty_result_and_load_failure stable_sort_desc Re_engine
                (host_with None) (widgets whole_range "zzz") (None, None)
                sample).
  - eapply (C4_empty_result_and_load_failure stable_sort_desc Re_engine
              host (widgets whole_range "zzz") (None, None) sample);
      try reflexivity.
    intros row Hrow%list_elem_of_In (col & Hcol%list_elem_of_In & _ & Hs).
    simpl in Hrow, Hcol.
    destruct Hrow as [<-|[<-|[<-|[<-|[<-|[]]]]]];
      destruct Hcol as [<-|[<-|[<-|[<-|[<-|[<-|[]]]]]]]; by vm_compute in Hs.
  - by apply (C4_empty_result_and_load_failure stable_sort_desc Re_engine
                host
                {| w_dates := whole_range;
                   w_channels := ["web"; "app"; "kakao"]%string;
                   w_event := true; w_prompt := EmptyString |}
                (None, None) sample).
Defined.

(** C4, as it is worded, fails on the sample: the keys are read, the
    file is loaded, the keyword "zzz" is found nowhere, and the script
    stops right after the warning.  No KPI and no table is shown, although
    nothing failed to load. *)
Lemma C4_counterexample :
  read_api_keys host = mret (None, None) ∧
  load_data (h_file host) = mret sample ∧
  dashboard stable_sort_desc Re_engine host (widgets whole_range "zzz")
  = ([ONotice (InfoUpdated (mkDate 2024 4 1)); ONotice WarnApiKeyNotFound;
      ONotice (WarnNoResults "zzz")],
     Stop).
Proof. repeat split; by vm_compute. Qed.

(** The run on the sample without a keyword, up to the tabs: the two
    notices of the sidebar and the four metrics. *)
Example before_tabs_sample :
  before_tabs Re_engine host (widgets whole_range EmptyString)
  = ([ONotice (InfoUpdated (mkDate 2024 4 1)); ONotice WarnApiKeyNotFound;
      OMetrics 950 5 (Some (950 # 5)) (Some (95 # 5))],
     Done sample).
Proof. vm_compute. reflexivity. Qed.

(** ** Missing optional columns *)

(** C6, as the code has it, view by view.  Without the seller column the
    seller tab shows the warning that the analysis is not available and
    nothing else.  Without the margin column the average-margin KPI is the
    number 0, shown among the metrics with no notice.  Without the region
    column tab 2 shows no table and no notice, whatever else happens in it.
    Without the customer column tab 3 shows the row browser only. *)
Theorem C6_missing_optional_columns
    (sort_values_desc : ∀ A : Type, (A → Z) → list A → list A)
    (df : DataFrame) :
  (has_col df SellerName = false → tab4 df = notify WarnNoSellerColumn) ∧
  (has_col df Margin = false →
   avg_margin df = Some 0%Q ∧
   (has_col df PaidAmount = true →
    kpi_section df
    = show (OMetrics (total_sales df) (total_orders df)
                     (avg_order_value df) (Some 0%Q)))) ∧
  (has_col df Region = false → fst (tab2 sort_values_desc df) = []) ∧
  (has_col df UID = false → tab3 sort_values_desc df = show (ORows df)).
Proof.
  split; [|split; [|split]].
  - intros H. unfold tab4. by rewrite H.
  - intros H. unfold kpi_section, avg_margin, require_col. rewrite H.
    split; [done|]. by intros ->.
  - intros Hr. unfold tab2, require_col, plotly_col. rewrite Hr.
    destruct (has_col df Channel), (has_col df PaidAmount),
      (has_col df Margin), (has_col df Quantity), (has_col df ProductName);
      reflexivity.
  - intros H. unfold tab3. by rewrite H.
Qed.

Lemma C6_missing_optional_columns_witness :
  tab4 sample_plain = notify WarnNoSellerColumn ∧
  avg_margin sample_bare = Some 0%Q ∧
  fst (tab2 stable_sort_desc sample_plain) = [] ∧
  tab3 stable_sort_desc sample_plain = show (ORows sample_plain).
Proof.
  split; [|split; [|split]].
  - by apply (C6_missing_optional_columns stable_sort_desc sample_plain).
  - by apply (C6_missing_optional_columns stable_sort_desc sample_bare).
  - by apply (C6_missing_optional_columns stable_sort_desc sample_plain).
  - by apply (C6_missing_optional_columns stable_sort_desc sample_plain).
Defined.

(** C6, as it is worded, fails on a file without the margin column: the
    average-margin card is not left out, it shows the substitute 0, and no
    notice says that the margin is unavailable. *)
Lemma C6_counterexample :
  has_col sample_bare Margin = false ∧
  kpi_section sample_bare
  = ([OMetrics 950 5 (Some (950 # 5)) (Some 0%Q)], Done tt).
Proof. split; by vm_compute. Qed.

(** * Further properties of the script *)

(** ** How the filters compose *)

Lemma filter_comm {A} (p q : A → bool) (l : list A) :
  List.filter p (List.filter q l) = List.filter q (List.filter p l).
Proof.
  induction l as [|x l IH]; simpl; [done|].
  destruct (p x) eqn:Ep, (q x) eqn:Eq; simpl; rewrite ?Ep, ?Eq, IH; done.
Qed.

Lemma filter_idem {A} (p : A → bool) (l : list A) :
  List.filter p (List.filter p l) = List.filter p l.
Proof.
  induction l as [|x l IH]; simpl; [done|].
  destruct (p x) eqn:Ep; simpl; rewrite ?Ep, IH; done.
Qed.

Lemma select_sublist (p : Row → bool) (df : DataFrame) :
  rows (select p df) `sublist_of` rows df.
Proof. apply filter_sublist. Qed.

Lemma date_filter_sublist (date_range : list Date) (df : DataFrame) :
  rows (date_filter date_range df) `sublist_of` rows df.
Proof.
  destruct date_range as [|? [|? [|? ?]]]; simpl; try done.
  apply filter_sublist.
Qed.

Lemma channel_filter_sublist (selected : list string) (df : DataFrame) :
  rows (channel_filter selected df) `sublist_of` rows df.
Proof. destruct selected; simpl; [done | apply filter_sublist]. Qed.

Lemma event_filter_sublist (b : bool) (df : DataFrame) :
  rows (event_filter b df) `sublist_of` rows df.
Proof.
  unfold event_filter. destruct (_ && _); [apply filter_sublist | done].
Qed.

Lemma boolean_index_sublist (df : DataFrame) (mask : list bool) :
  rows (boolean_index df mask) `sublist_of` rows df.
Proof.
  unfold boolean_index. simpl. revert mask.
  induction (rows df) as [|x l IH]; intros [|b mask]; simpl;
    try done; try apply sublist_nil_l.
  destruct b; simpl; constructor; apply IH.
Qed.

Lemma mask_loop_log (prompt : string) (df : DataFrame)
    (cols : list (Column * (Row → string))) (mask : list bool) :
  fst (mask_loop prompt df cols mask) = [].
Proof.
  revert mask. induction cols as [|col cols IH]; intros mask; [done|].
  cbn [mask_loop]. unfold str_contains.
  destruct (Re.compile prompt); try done.
  rewrite Script_ret_bind. apply IH.
Qed.

(** What a finished keyword filter has done. *)
Lemma keyword_filter_done (prompt : string) (df v : DataFrame)
    (log : list Output) :
  keyword_filter prompt df = (log, Done v) →
  (truthy prompt = false ∧ v = df ∧ log = []) ∨
  (truthy prompt = true ∧ df_empty v = false ∧
   (∃ mask, v = boolean_index df mask) ∧
   log = [ONotice (SuccessFound prompt (length (rows v)))]).
Proof.
  unfold keyword_filter. destruct (truthy prompt).
  - pose proof (mask_loop_log prompt df (valid_cols df)
                  (replicate (length (rows df)) false)) as Hlog.
    destruct (mask_loop _ _ _ _) as [log0 [mask| | |]]; simpl in Hlog;
      subst log0; try discriminate.
    unfold mbind, Script_bind.
    destruct (df_empty (boolean_index df mask)) eqn:He; [discriminate|].
    intros [= <- <-]. right. eauto.
  - intros [= <- <-]. by left.
Qed.

(** X1.  The filters only narrow the table: the view that reaches the
    aggregations has the columns of the loaded table and its rows are rows
    of the loaded table, in their order, so never more of them. *)
Theorem filters_only_narrow (raw_df : DataFrame) (date_range : list Date)
    (selected_channels : list string) (event_checkbox : bool)
    (prompt : string) :
  let view :=
    before_keyword raw_df date_range selected_channels event_checkbox in
  columns view = columns raw_df ∧
  rows view `sublist_of` rows raw_df ∧
  (∀ log df_filtered,
     keyword_filter prompt view = (log, Done df_filtered) →
     columns df_filtered = columns raw_df ∧
     rows df_filtered `sublist_of` rows raw_df ∧
     (length (rows df_filtered) ≤ length (rows raw_df))%nat).
Proof.
  intros view.
  assert (Hc : columns view = columns raw_df)
    by apply before_keyword_columns.
  assert (Hr : rows view `sublist_of` rows raw_df).
  { unfold view, before_keyword.
    etrans; [apply event_filter_sublist|].
    etrans; [apply channel_filter_sublist|]. apply date_filter_sublist. }
  split; [done|]. split; [done|].
  intros log v Hrun.
  assert (Hv : columns v = columns view ∧ rows v `sublist_of` rows view).
  { apply keyword_filter_done in Hrun
      as [(_ & -> & _)|(_ & _ & (mask & ->) & _)]; [done|].
    split; [done | apply boolean_index_sublist]. }
  destruct Hv as [Hvc Hvr]. split; [congruence|].
  assert (rows v `sublist_of` rows raw_df) by (by etrans).
  split; [done | by apply sublist_length].
Qed.

Lemma filters_only_narrow_witness :
  (length (rows {| columns := all_columns; rows := [row2; row3] |})
   ≤ length (rows sample))%nat.
Proof.
  eapply (filters_only_narrow sample [] [] false "JEJU").
  vm_compute. reflexivity.
Defined.

(** X2.  The date, channel and event filters can be applied in any
    order: each pair of them commutes. *)
Theorem filters_commute (df : DataFrame) (date_range : list Date)
    (selected_channels : list string) (show_event_only : bool) :
  date_filter date_range (channel_filter selected_channels df)
  = channel_filter selected_channels (date_filter date_range df) ∧
  event_filter show_event_only (date_filter date_range df)
  = date_filter date_range (event_filter show_event_only df) ∧
  event_filter show_event_only (channel_filter selected_channels df)
  = channel_filter selected_channels (event_filter show_event_only df).
Proof.
  unfold event_filter, channel_filter, date_filter, select, has_col.
  destruct df as [cols rs].
  destruct date_range as [|? [|? [|? ?]]], selected_channels as [|? ?];
    cbn [columns rows];
    destruct (show_event_only && bool_decide (EventFlag ∈ cols));
    cbn [columns rows]; repeat split; f_equal; apply filter_comm.
Qed.

(** X3.  Each of the three filters is idempotent: applying it again with
    the same setting changes nothing. *)
Theorem filters_idempotent (df : DataFrame) (date_range : list Date)
    (selected_channels : list string) (show_event_only : bool) :
  date_filter date_range (date_filter date_range df)
  = date_filter date_range df ∧
  channel_filter selected_channels (channel_filter selected_channels df)
  = channel_filter selected_channels df ∧
  event_filter show_event_only (event_filter show_event_only df)
  = event_filter show_event_only df.
Proof.
  unfold event_filter, channel_filter, date_filter, select, has_col.
  destruct df as [cols rs].
  destruct date_range as [|? [|? [|? ?]]], selected_channels as [|? ?];
    cbn [columns rows];
    destruct (show_event_only && bool_decide (EventFlag ∈ cols)) eqn:E;
    cbn [columns rows]; rewrite ?E; repeat split; f_equal;
    apply filter_idem.
Qed.

(** X4.  The event filter keeps exactly the rows flagged "Y" when the
    box is ticked and the table has the flag column; a missing flag is not
    a "Y".  With the box unticked or the column absent it returns the view
    as it is. *)
Theorem event_filter_spec (df : DataFrame) (show_event_only : bool) :
  (show_event_only = true → has_col df EventFlag = true →
   columns (event_filter show_event_only df) = columns df ∧
   Filtered (fun r => event_flag r = Some "Y"%string)
            (rows df) (rows (event_filter show_event_only df))) ∧
  (show_event_only = false ∨ has_col df EventFlag = false →
   event_filter show_event_only df = df).
Proof.
  unfold event_filter. split.
  - intros -> ->. simpl. split; [done|].
    apply Filtered_filter. intros r. apply bool_decide_eq_true.
  - intros [-> | ->]; [done|]. by rewrite andb_false_r.
Qed.

Lemma event_filter_spec_witness :
  rows (event_filter true sample) = [] ∧
  event_filter true sample_bare = sample_bare.
Proof.
  split.
  - destruct (event_filter_spec sample true) as [Hon _].
    destruct Hon as [_ Hrows]; [reflexivity..|].
    eapply Filtered_unique; [exact Hrows|].
    apply Filtered_none. intros r Hr%list_elem_of_In. simpl in Hr.
    destruct Hr as [<-|[<-|[<-|[<-|[<-|[]]]]]]; discriminate.
  - apply (event_filter_spec sample_bare true). by right.
Defined.

(** X10.  A keyword search that goes on never hands an empty view to the
    aggregations: when the filter ends normally on a non-empty keyword, at
    least one row is left and the success notice states their number. *)
Theorem keyword_filter_never_empty (prompt : string) (df v : DataFrame)
    (log : list Output) :
  truthy prompt = true →
  keyword_filter prompt df = (log, Done v) →
  rows v ≠ [] ∧ log = [ONotice (SuccessFound prompt (length (rows v)))].
Proof.
  intros Ht Hrun.
  apply keyword_filter_done in Hrun as [(Hf & _)|(_ & He & _ & ->)];
    [congruence|].
  split; [|done]. intros Hnil. unfold df_empty in He. rewrite Hnil in He.
  by destruct (columns v).
Qed.

Lemma keyword_filter_never_empty_witness :
  rows {| columns := all_columns; rows := [row2; row3] |} ≠ [] ∧
  [ONotice (SuccessFound "JEJU" 2)]
  = [ONotice (SuccessFound "JEJU"
       (length (rows {| columns := all_columns; rows := [row2; row3] |})))].
Proof.
  apply (keyword_filter_never_empty "JEJU" sample); [reflexivity|].
  vm_compute. reflexivity.
Defined.

(** ** The defaults of the sidebar *)

Lemma date_le_trans (a b c : Date) : date_le a b → date_le b c → date_le a c.
Proof. unfold date_le. lia. Qed.

Lemma date_le_total (a b : Date) : date_le a b ∨ date_le b a.
Proof. unfold date_le. lia. Qed.

Lemma date_le_antisym (a b : Date) : date_le a b → date_le b a → a = b.
Proof.
  destruct a, b. unfold date_le. simpl. intros ? ?. f_equal; lia.
Qed.

Lemma ts_leb_spec (a b : Timestamp) :
  ts_leb a b = true ↔
  (ts_date a = ts_date b ∧ ts_time a <= ts_time b) ∨
  (ts_date a ≠ ts_date b ∧ date_le (ts_date a) (ts_date b)).
Proof.
  unfold ts_leb. case_bool_decide as E.
  - rewrite Z.leb_le. intuition.
  - rewrite date_leb_spec. intuition.
Qed.

Lemma ts_leb_total (a b : Timestamp) : ts_leb a b = true ∨ ts_leb b a = true.
Proof.
  rewrite !ts_leb_spec.
  destruct (decide (ts_date a = ts_date b)) as [E|E].
  - rewrite E. destruct (Z.le_ge_cases (ts_time a) (ts_time b)); auto.
  - destruct (date_le_total (ts_date a) (ts_date b)); auto.
Qed.

Lemma ts_leb_trans (a b c : Timestamp) :
  ts_leb a b = true → ts_leb b c = true → ts_leb a c = true.
Proof.
  rewrite !ts_leb_spec.
  intros [[E1 H1]|[E1 H1]] [[E2 H2]|[E2 H2]].
  - left. split; [congruence | lia].
  - right. rewrite E1. done.
  - right. rewrite <- E2. done.
  - right. split; [|by eapply date_le_trans].
    intros E. rewrite E in H1. apply E2. by apply date_le_antisym.
Qed.

Lemma ts_leb_date (a b : Timestamp) :
  ts_leb a b = true → date_le (ts_date a) (ts_date b).
Proof.
  rewrite ts_leb_spec. intros [[-> _]|[_ H]]; [apply date_le_refl | done].
Qed.

Lemma series_min_spec {A} (leb : A → A → bool) (l : list A) :
  (∀ a b, leb a b = true ∨ leb b a = true) →
  (∀ a b c, leb a b = true → leb b c = true → leb a c = true) →
  l ≠ [] →
  ∃ m, series_min leb l = Some m ∧ ∀ y, y ∈ l → leb m y = true.
Proof.
  intros Htot Htrans Hne. destruct l as [|x l]; [done|]. clear Hne.
  eexists. split; [reflexivity|]. simpl.
  assert (Hgen : ∀ l x, leb (foldl (fun m y => if leb y m then y else m) x l) x
                        = true ∧
                        ∀ y, y ∈ l →
                          leb (foldl (fun m y => if leb y m then y else m) x l) y
                          = true).
  { clear l x. induction l as [|y l IH]; intros x; simpl.
    - split; [by destruct (Htot x x) | by intros ? ?%elem_of_nil].
    - destruct (IH (if leb y x then y else x)) as [Hm Hl].
      destruct (leb y x) eqn:E.
      + split; [by eapply Htrans|].
        intros z [->|Hz]%elem_of_cons; auto.
      + assert (leb x y = true) by (destruct (Htot x y); congruence).
        split; [done|].
        intros z [->|Hz]%elem_of_cons; [by eapply Htrans | auto]. }
  destruct (Hgen l x) as [Hx Hl].
  intros y [->|Hy]%elem_of_cons; auto.
Qed.

Lemma series_max_spec {A} (leb : A → A → bool) (l : list A) :
  (∀ a b, leb a b = true ∨ leb b a = true) →
  (∀ a b c, leb a b = true → leb b c = true → leb a c = true) →
  l ≠ [] →
  ∃ m, series_max leb l = Some m ∧ ∀ y, y ∈ l → leb y m = true.
Proof.
  intros Htot Htrans Hne. destruct l as [|x l]; [done|]. clear Hne.
  eexists. split; [reflexivity|]. simpl.
  assert (Hgen : ∀ l x, leb x (foldl (fun m y => if leb m y then y else m) x l)
                        = true ∧
                        ∀ y, y ∈ l →
                          leb y (foldl (fun m y => if leb m y then y else m) x l)
                          = true).
  { clear l x. induction l as [|y l IH]; intros x; simpl.
    - split; [by destruct (Htot x x) | by intros ? ?%elem_of_nil].
    - destruct (IH (if leb x y then y else x)) as [Hm Hl].
      destruct (leb x y) eqn:E.
      + split; [by eapply Htrans|].
        intros z [->|Hz]%elem_of_cons; auto.
      + assert (leb y x = true) by (destruct (Htot x y); congruence).
        split; [done|].
        intros z [->|Hz]%elem_of_cons; [by eapply Htrans | auto]. }
  destruct (Hgen l x) as [Hx Hl].
  intros y [->|Hy]%elem_of_cons; auto.
Qed.

Lemma elem_of_unique {A} `{EqDecision A} (l : list A) (y : A) :
  y ∈ unique l ↔ y ∈ l.
Proof.
  induction l as [|x l IH]; simpl; [done|].
  rewrite !elem_of_cons, <- IH, list_elem_of_In, filter_In,
    <- list_elem_of_In, bool_decide_eq_true.
  destruct (decide (y = x)); intuition.
Qed.

(** X5.  With the widgets left at their defaults nothing is filtered
    out: the date range from the earliest to the latest order, all the
    channels of the table selected and the event box unticked give back
    the loaded table. *)
Theorem default_widgets_keep_everything (raw_df : DataFrame) :
  rows raw_df ≠ [] →
  ∃ first_day last_day,
    min_date raw_df = Some first_day ∧ max_date raw_df = Some last_day ∧
    date_le first_day last_day ∧
    before_keyword raw_df [first_day; last_day] (all_channels raw_df) false
    = raw_df.
Proof.
  intros Hne.
  assert (Hne' : map order_date (rows raw_df) ≠ [])
    by (by destruct (rows raw_df)).
  destruct (series_min_spec ts_leb _ ts_leb_total ts_leb_trans Hne')
    as (lo & Hlo & Hmin).
  destruct (series_max_spec ts_leb _ ts_leb_total ts_leb_trans Hne')
    as (hi & Hhi & Hmax).
  assert (Hbounds : ∀ r, r ∈ rows raw_df →
            date_le (ts_date lo) (ts_date (order_date r)) ∧
            date_le (ts_date (order_date r)) (ts_date hi)).
  { intros r Hr.
    assert (order_date r ∈ map order_date (rows raw_df))
      by (by apply (list_elem_of_fmap_2 order_date)).
    split; apply ts_leb_date; auto. }
  exists (ts_date lo), (ts_date hi).
  unfold min_date, max_date. rewrite Hlo, Hhi.
  split; [done|]. split; [done|]. split.
  { destruct (rows raw_df) as [|r ?]; [done|].
    destruct (Hbounds r) as [? ?]; [by left|]. by eapply date_le_trans. }
  unfold before_keyword. rewrite andb_false_r.
  change (event_filter false ?d) with d.
  assert (Hdate : date_filter [ts_date lo; ts_date hi] raw_df = raw_df).
  { destruct raw_df as [cols rs]. unfold date_filter, select. simpl in *.
    f_equal. clear Hne Hne' Hlo Hhi Hmin Hmax.
    induction rs as [|r rs IH]; simpl; [done|].
    destruct (Hbounds r) as [H1 H2]; [by left|].
    apply date_leb_spec in H1, H2. rewrite H1, H2. simpl. f_equal.
    apply IH. intros r' Hr'. apply Hbounds. by right. }
  rewrite Hdate. unfold channel_filter.
  destruct (all_channels raw_df) eqn:Hall; [done|]. rewrite <- Hall.
  destruct raw_df as [cols rs]. unfold select. simpl. f_equal.
  unfold all_channels. simpl. clear.
  assert (Hin : ∀ r, r ∈ rs → isin (unique (map channel rs)) (channel r) = true).
  { intros r Hr. apply isin_spec, elem_of_unique.
    by apply (list_elem_of_fmap_2 channel). }
  revert Hin. generalize (unique (map channel rs)) as chans. intros chans.
  induction rs as [|r rs IH]; intros Hin; simpl; [done|].
  rewrite Hin by (by left). f_equal. apply IH. intros r' Hr'.
  apply Hin. by right.
Qed.

Lemma default_widgets_keep_everything_witness :
  ∃ first_day last_day,
    min_date sample = Some first_day ∧ max_date sample = Some last_day ∧
    date_le first_day last_day ∧
    before_keyword sample [first_day; last_day] (all_channels sample) false
    = sample.
Proof. apply (default_widgets_keep_everything sample). discriminate. Defined.

(** ** More on the keyword search *)

Lemma Filtered_all {A} (P : A → Prop) (l : list A) :
  (∀ x, x ∈ l → P x) → Filtered P l l.
Proof.
  induction l as [|x l IH]; intros H; constructor.
  - apply H. by left.
  - apply IH. intros y Hy. apply H. by right.
Qed.

Lemma truthy_spec (s : string) : truthy s = true ↔ list_ascii_of_string s ≠ [].
Proof. by destruct s. Qed.

(** X6.  Upper and lower case in the keyword make no difference: two
    keywords without special characters that are equal up to case keep the
    same rows (the notice quotes the keyword as typed). *)
Theorem keyword_case_insensitive (prompt1 prompt2 : string) (df : DataFrame) :
  truthy prompt1 = true →
  Forall (fun c => Re.is_special c = false) (list_ascii_of_string prompt1) →
  Forall (fun c => Re.is_special c = false) (list_ascii_of_string prompt2) →
  map Re.lower (list_ascii_of_string prompt1)
  = map Re.lower (list_ascii_of_string prompt2) →
  ∃ kept,
    keyword_filter prompt1 df = keyword_outcome prompt1 df kept ∧
    keyword_filter prompt2 df = keyword_outcome prompt2 df kept.
Proof.
  intros Ht1 Hp1 Hp2 Hcase.
  assert (Ht2 : truthy prompt2 = true).
  { apply truthy_spec. apply truthy_spec in Ht1. intros Hnil.
    rewrite Hnil in Hcase. by destruct (list_ascii_of_string prompt1). }
  destruct (keyword_filter_pattern prompt1 df _ Ht1
              (ParseFacts.compile_literal prompt1 Hp1)) as (k1 & Hk1 & Hr1).
  destruct (keyword_filter_pattern prompt2 df _ Ht2
              (ParseFacts.compile_literal prompt2 Hp2)) as (k2 & Hk2 & Hr2).
  exists k1. split; [done|]. rewrite Hr2. f_equal.
  eapply Filtered_unique; [exact Hk2|].
  eapply Filtered_ext; [|exact Hk1].
  intros row. apply some_search_col_ext. intros t.
  unfold contains_match. setoid_rewrite ParseFacts.Matches_literal.
  by rewrite Hcase.
Qed.

Lemma keyword_case_insensitive_witness :
  ∃ kept,
    keyword_filter "JEJU" sample = keyword_outcome "JEJU" sample kept ∧
    keyword_filter "jeju" sample = keyword_outcome "jeju" sample kept.
Proof.
  apply (keyword_case_insensitive "JEJU" "jeju" sample);
    [reflexivity | repeat constructor | repeat constructor | reflexivity].
Defined.

Lemma lower_idem (c : ascii) : Re.lower (Re.lower c) = Re.lower c.
Proof. destruct c as [[] [] [] [] [] [] [] []]; reflexivity. Qed.

Lemma lower_newline (c : ascii) :
  Ascii.eqb (Re.lower c) Re.newline = Ascii.eqb c Re.newline.
Proof. destruct c as [[] [] [] [] [] [] [] []]; reflexivity. Qed.

Lemma deriv_lower (d : ascii) (r : Re.regex) :
  Re.deriv (Re.lower d) r = Re.deriv d r.
Proof.
  induction r as [| |c| |r1 IH1 r2 IH2|r1 IH1 r2 IH2|r IH]; simpl;
    rewrite ?lower_idem, ?lower_newline, ?IH1, ?IH2, ?IH; done.
Qed.

Lemma match_prefix_lower (r : Re.regex) (s : list ascii) :
  Re.match_prefix r (map Re.lower s) = Re.match_prefix r s.
Proof.
  revert r. induction s as [|d s IH]; intros r; simpl; [done|].
  by rewrite deriv_lower, IH.
Qed.

(** X7.  Upper and lower case in the text make no difference either: a
    pattern is found in a text exactly when it is found in the text put
    in lower case. *)
Theorem search_ignores_case (r : Re.regex) (s : list ascii) :
  Re.search r (map Re.lower s) = Re.search r s.
Proof.
  induction s as [|d s IH]; [done|].
  cbn [map Re.search]. rewrite IH. f_equal.
  apply (match_prefix_lower r (d :: s)).
Qed.

(** X8.  A keyword whose pattern can match the empty text filters
    nothing: every row is kept, as with ["x*"] or ["a?"]. *)
Theorem keyword_matching_empty_keeps_all (prompt : string) (df : DataFrame)
    (r : Re.regex) :
  truthy prompt = true → Re.compile prompt = Re.Pattern r →
  Re.nullable r = true → has_col df Channel = true → df_empty df = false →
  keyword_filter prompt df
  = ([ONotice (SuccessFound prompt (length (rows df)))], Done df).
Proof.
  intros Ht Hc Hn Hch Hne.
  destruct (keyword_filter_pattern prompt df r Ht Hc) as (kept & Hk & ->).
  assert (Hall : Filtered (some_search_col df (contains_match r))
                          (rows df) (rows df)).
  { apply Filtered_all. intros row _. exists (Channel, channel).
    split; [unfold search_cols; in_list|]. split; [done|].
    exists []. split; [by exists [], (list_ascii_of_string (channel row))|].
    by apply ReFacts.nullable_spec. }
  rewrite (Filtered_unique _ _ _ _ Hk Hall). unfold keyword_outcome.
  destruct df as [cols rs]. simpl in *. by rewrite Hne.
Qed.

Lemma keyword_matching_empty_keeps_all_witness :
  keyword_filter "x*" sample
  = ([ONotice (SuccessFound "x*" (length (rows sample)))], Done sample).
Proof.
  by eapply (keyword_matching_empty_keeps_all "x*" sample).
Defined.

(** X9.  A keyword that starts with a repeat sign or a closing bracket is
    never a pattern: the search raises the error of [re] (the script has
    read the channel column before, so the filter looks at one column at
    least).  After a repeat sign the error is "nothing to repeat", unless
    the rest of the keyword is a single backslash, which the tokenizer
    reports first; a closing bracket is "unbalanced parenthesis" whatever
    follows. *)
Theorem keyword_bad_start_raises (rest : string) (df : DataFrame) :
  has_col df Channel = true →
  let msg := if Re.lone_backslash (list_ascii_of_string rest)
             then "bad escape (end of pattern)"%string
             else "nothing to repeat"%string in
  keyword_filter (String "*" rest) df = raise (ReError msg) ∧
  keyword_filter (String "+" rest) df = raise (ReError msg) ∧
  keyword_filter (String "?" rest) df = raise (ReError msg) ∧
  keyword_filter (String ")" rest) df
  = raise (ReError "unbalanced parenthesis").
Proof.
  intros Hch msg. pose proof (valid_cols_channel df Hch) as Hcols.
  assert (Hbad : ∀ c m,
    Re.compile (String c rest) = Re.Invalid m →
    keyword_filter (String c rest) df = raise (ReError m)).
  { intros c m Hc. unfold keyword_filter. cbn [truthy].
    by rewrite (mask_loop_invalid _ _ m _ _ Hc Hcols). }
  assert (Hrep : ∀ c, c = "*"%char ∨ c = "+"%char ∨ c = "?"%char →
    Re.compile (String c rest) = Re.Invalid msg).
  { intros c Hc. unfold Re.compile, msg. cbn [list_ascii_of_string Re.parse].
    destruct Hc as [->|[->| ->]]; simpl;
      by destruct (Re.lone_backslash (list_ascii_of_string rest)). }
  repeat split; apply Hbad; auto.
Qed.

Lemma keyword_bad_start_raises_witness :
  keyword_filter "*seoul" sample = raise (ReError "nothing to repeat") ∧
  keyword_filter "+\" sample = raise (ReError "bad escape (end of pattern)").
Proof.
  split.
  - by apply (keyword_bad_start_raises "seoul" sample).
  - by apply (keyword_bad_start_raises "\" sample).
Defined.

(** ** Totals of the grouped tables *)

Lemma sorted_strict {A} (leb : A → A → bool) (l : list A) :
  (∀ a b, leb a b = true ∨ leb b a = true) →
  (∀ a b c, leb a b = true → leb b c = true → leb a c = true) →
  NoDup l →
  StronglySorted (fun a b => leb a b = true ∧ a ≠ b) (sorted leb l).
Proof.
  intros Htot Htrans Hnd.
  assert (HT : Total (fun a b => Is_true (leb a b))).
  { intros a b. rewrite !Is_true_true. apply Htot. }
  assert (HR : Transitive (fun a b => Is_true (leb a b))).
  { intros a b c. rewrite !Is_true_true. apply Htrans. }
  assert (Hs : StronglySorted (fun a b => Is_true (leb a b)) (sorted leb l))
    by apply (@StronglySorted_merge_sort _ _ _ HR HT).
  assert (Hn : NoDup (sorted leb l)).
  { unfold sorted. by rewrite merge_sort_Permutation. }
  induction Hs as [|a k Hk IH Hall]; [constructor|].
  apply NoDup_cons in Hn as [Ha Hn]. constructor; [auto|].
  rewrite Forall_forall in *. intros x Hx. split.
  - apply Is_true_true. auto.
  - intros ->. done.
Qed.

Lemma StronglySorted_weaken {A} (R S : A → A → Prop) (l : list A) :
  (∀ a b, R a b → S a b) → StronglySorted R l → StronglySorted S l.
Proof.
  intros HRS. induction 1 as [|a l Hl IH Hall]; constructor; [done|].
  eapply Forall_impl; [exact Hall | auto].
Qed.

Lemma date_leb_total (a b : Date) : date_leb a b = true ∨ date_leb b a = true.
Proof. rewrite !date_leb_spec. apply date_le_total. Qed.

Lemma date_leb_trans (a b c : Date) :
  date_leb a b = true → date_leb b c = true → date_leb a c = true.
Proof. rewrite !date_leb_spec. apply date_le_trans. Qed.

Lemma omap_Some_map {A B} (f : A → B) (l : list A) :
  omap (fun x => Some (f x)) l = map f l.
Proof.
  induction l as [|x l IH]; [done|]. cbn [map omap list_omap]. by f_equal.
Qed.

Lemma filter_is_Some_all {A B} (f : A → B) (l : list A) :
  List.filter (fun x => bool_decide (is_Some (Some (f x)))) l = l.
Proof. apply filter_all. intros x. apply bool_decide_eq_true. eauto. Qed.

(** X11.  The daily revenue series has one point per calendar day on
    which the view has an order, the days in increasing order; and when
    the amounts are whole numbers whose magnitudes add up to less than
    2^53, its values add up to the total-sales KPI of the view. *)
Theorem daily_sales_total (df : DataFrame) :
  (exact_sums paid df → sum_Z (map snd (daily_sales df)) = total_sales df) ∧
  StronglySorted (fun a b => date_le a b ∧ a ≠ b) (map fst (daily_sales df)) ∧
  (∀ d, d ∈ map fst (daily_sales df) ↔
        ∃ r, r ∈ rows df ∧ ts_date (order_date r) = d).
Proof.
  unfold daily_sales. rewrite !map_map. simpl.
  split; [|split].
  - intros Hb. rewrite (groupby_Series_sum _ _ paid) by done.
    rewrite groupby_sum, total_sales_exact by done.
    by rewrite filter_is_Some_all.
  - change (map (fun g => fst g) ?l) with (map fst l).
    unfold groupby. rewrite map_map. simpl. rewrite map_id.
    eapply StronglySorted_weaken;
      [|apply (sorted_strict date_leb _ date_leb_total date_leb_trans),
          NoDup_remove_dups].
    intros a b [H ?]. split; [by apply date_leb_spec | done].
  - intros d. change (map (fun g => fst g) ?l) with (map fst l).
    rewrite groupby_keys, elem_of_remove_dups, omap_Some_map.
    change (map ?f ?l) with (f <$> l). rewrite list_elem_of_fmap.
    split; intros (r & ? & ?); eauto.
Qed.

Lemma daily_sales_total_witness :
  sum_Z (map snd (daily_sales sample)) = total_sales sample.
Proof. apply (daily_sales_total sample). by vm_compute. Defined.

(** X12.  The channel table behind the chart of tab 2 has one line per
    channel of the view; when the amounts, and the margins, are whole
    numbers whose magnitudes add up to less than 2^53, its revenues add up
    to the total-sales KPI and its margins to the sum of the margin
    column. *)
Theorem channel_perf_total (df : DataFrame) :
  (exact_sums paid df →
   sum_Z (map (fun c => snd (fst c)) (channel_perf df)) = total_sales df) ∧
  (exact_sums margin df →
   sum_Z (map snd (channel_perf df)) = sum_Z (map margin (rows df))) ∧
  NoDup (map (fun c => fst (fst c)) (channel_perf df)) ∧
  (∀ r, r ∈ rows df →
        channel r ∈ map (fun c => fst (fst c)) (channel_perf df)).
Proof.
  unfold channel_perf. rewrite !map_map. simpl.
  change (map (fun g => fst g) ?l) with (map fst l).
  split; [|split; [|split]].
  - intros Hb. rewrite (groupby_Series_sum _ _ paid) by done.
    rewrite groupby_sum, total_sales_exact by done.
    by rewrite filter_is_Some_all.
  - intros Hb. rewrite (groupby_Series_sum _ _ margin) by done.
    rewrite groupby_sum. by rewrite filter_is_Some_all.
  - rewrite groupby_keys. apply NoDup_remove_dups.
  - intros r Hr. rewrite groupby_keys, elem_of_remove_dups, omap_Some_map.
    by apply (list_elem_of_fmap_2 channel).
Qed.

Lemma length_sum_ones {A} (l : list A) :
  Z.of_nat (length l) = sum_Z (map (fun _ => 1) l).
Proof. induction l as [|x l IH]; simpl; lia. Qed.

(** X13.  The regional table counts only the rows that name a region:
    its order counts add up to their number, so orders without a region
    appear nowhere in it; it is in descending order of revenue; and when
    the amounts are whole numbers whose magnitudes add up to less than
    2^53, its revenues add up to the revenue of those rows. *)
Theorem region_df_total
    (sort_values_desc : ∀ A : Type, (A → Z) → list A → list A)
    (df : DataFrame) :
  sort_contract sort_values_desc →
  let located :=
    List.filter (fun r => bool_decide (is_Some (region r))) (rows df) in
  (exact_sums paid df →
   sum_Z (map rg_revenue (region_df sort_values_desc df))
   = sum_Z (map paid located)) ∧
  sum_Z (map rg_orders (region_df sort_values_desc df))
  = Z.of_nat (length located) ∧
  Sorted (fun a b => rg_revenue b <= rg_revenue a)
         (region_df sort_values_desc df).
Proof.
  intros Hsort located. unfold region_df.
  destruct (Hsort _ rg_revenue
              (map (fun g => {| rg_region := fst g;
                                rg_orders := Z.of_nat (length (snd g));
                                rg_revenue := Series_sum (map paid (snd g)) |})
                   (groupby String.leb region (rows df))))
    as [Hperm Hsorted].
  split; [|split; [|done]].
  - intros Hb. change (map rg_revenue ?l) with (rg_revenue <$> l).
    rewrite (sum_Z_perm _ _ (fmap_Permutation rg_revenue _ _ Hperm)).
    change (?f <$> map ?g ?l) with (map f (map g l)).
    rewrite map_map. simpl.
    rewrite (groupby_Series_sum _ _ paid) by done. apply groupby_sum.
  - change (map rg_orders ?l) with (rg_orders <$> l).
    rewrite (sum_Z_perm _ _ (fmap_Permutation rg_orders _ _ Hperm)).
    change (?f <$> map ?g ?l) with (map f (map g l)).
    rewrite map_map. simpl. unfold located. rewrite length_sum_ones.
    rewrite <- (groupby_sum String.leb region (fun _ => 1)).
    f_equal. apply map_ext. intros g. apply length_sum_ones.
Qed.

Lemma region_df_total_witness :
  sum_Z (map rg_revenue (region_df stable_sort_desc sample)) = 950.
Proof.
  apply (region_df_total stable_sort_desc sample stable_sort_desc_contract).
  by vm_compute.
Defined.

(** X15.  The average-margin card is a missing value exactly when the
    table has the margin column and the view has no row; with the column
    and at least one row it is the mean of the margins. *)
Theorem avg_margin_spec (df : DataFrame) :
  (avg_margin df = None ↔ has_col df Margin = true ∧ rows df = []) ∧
  (has_col df Margin = true → rows df ≠ [] →
   ∃ q, avg_margin df = Some q ∧
        (q * inject_Z (total_orders df)
         == inject_Z (sum_Z (map margin (rows df))))%Q).
Proof.
  unfold avg_margin, mean, total_orders. rewrite length_map.
  destruct (has_col df Margin); split.
  - unfold truediv. destruct (rows df) as [|r l]; simpl.
    + done.
    + split; [discriminate | by intros [_ ?]].
  - intros _ Hne. apply truediv_pos. destruct (rows df); [done|]. simpl. lia.
  - split; [discriminate | by intros [? _]].
  - discriminate.
Qed.

Lemma avg_margin_spec_witness :
  ∃ q, avg_margin sample = Some q ∧ (q * 5 == 95)%Q.
Proof.
  apply (avg_margin_spec sample); [reflexivity | discriminate].
Defined.

(** X16.  With at most 20 customers the VIP table leaves no customer
    out: it is the per-customer table in another order; and when the
    amounts are whole numbers whose magnitudes add up to less than 2^53,
    its payments add up to the total-sales KPI. *)
Theorem vip_df_complete
    (sort_values_desc : ∀ A : Type, (A → Z) → list A → list A)
    (df : DataFrame) :
  sort_contract sort_values_desc →
  (length (remove_dups (map uid (rows df))) ≤ 20)%nat →
  vip_df sort_values_desc df ≡ₚ vip_groups df ∧
  (exact_sums paid df →
   sum_Z (map vip_paid (vip_df sort_values_desc df)) = total_sales df).
Proof.
  intros Hsort Hfew. unfold vip_df.
  destruct (Hsort _ vip_orders (vip_groups df)) as [Hperm _].
  assert (Hlen : (length (sort_values_desc Vip vip_orders (vip_groups df))
                  ≤ 20)%nat).
  { rewrite Hperm, <- (length_map vip_uid (vip_groups df)), vip_groups_uids.
    done. }
  rewrite take_ge by done. split; [done|]. intros Hb.
  change (map vip_paid ?l) with (vip_paid <$> l).
  rewrite (sum_Z_perm _ _ (fmap_Permutation vip_paid _ _ Hperm)).
  unfold vip_groups. change (?f <$> map ?g ?l) with (map f (map g l)).
  rewrite map_map. simpl.
  rewrite (groupby_Series_sum _ _ paid) by done.
  rewrite groupby_sum, total_sales_exact by done.
  by rewrite filter_is_Some_all.
Qed.

Lemma vip_df_complete_witness :
  sum_Z (map vip_paid (vip_df stable_sort_desc sample)) = total_sales sample.
Proof.
  apply (vip_df_complete stable_sort_desc sample stable_sort_desc_contract).
  - vm_compute. lia.
  - by vm_compute.
Defined.

(** ** Missing columns in the run of the script *)

(** X17.  Once the keys are read and the file is loaded: a table that
    lacks the order date or the channel column makes the script raise
    [KeyError] in the sidebar, before any filter runs and before anything
    is shown; one that has both but lacks the paid amount raises it at the
    first KPI, after the two notices of the sidebar (no keyword). *)
Theorem dashboard_missing_required_column
    (sort_values_desc : ∀ A : Type, (A → Z) → list A → list A)
    (E : Engine) (h : Host) (w : Widgets)
    (keys : option string * option string) (raw_df : DataFrame) :
  read_api_keys h = mret keys → h_file h = Some raw_df →
  df_empty raw_df = false →
  (has_col raw_df OrderDate = false →
   dashboard sort_values_desc E h w = raise (KeyError OrderDate)) ∧
  (has_col raw_df OrderDate = true → has_col raw_df Channel = false →
   dashboard sort_values_desc E h w = raise (KeyError Channel)) ∧
  (has_col raw_df OrderDate = true → has_col raw_df Channel = true →
   has_col raw_df PaidAmount = false → w_prompt w = EmptyString →
   dashboard sort_values_desc E h w
   = ([ONotice (InfoUpdated (h_today h)); ONotice (api_status (fst keys))],
      Raise (KeyError PaidAmount))).
Proof.
  intros Hk Hf Hne. split; [|split].
  - intros Hd. unfold dashboard, before_tabs, load_data, require_col.
    by rewrite Hk, Script_ret_bind, Hf, Script_ret_bind, Hne, Hd.
  - intros Hd Hc. unfold dashboard, before_tabs, load_data, require_col.
    by rewrite Hk, Script_ret_bind, Hf, Script_ret_bind, Hne, Hd,
      Script_ret_bind, Hc.
  - intros Hd Hc Hp Hprompt. unfold dashboard.
    rewrite (before_tabs_loaded E h w keys raw_df) by done. rewrite Hprompt.
    change (keyword_filter_with E EmptyString ?v)
      with (mret v : Script DataFrame).
    rewrite Script_ret_bind. unfold kpi_section, require_col.
    rewrite (has_col_columns _ raw_df) by apply before_keyword_columns.
    by rewrite Hp.
Qed.

Lemma dashboard_missing_required_column_witness :
  dashboard stable_sort_desc Re_engine
    (host_with (Some {| columns := [Channel; PaidAmount];
                        rows := rows sample |}))
    (widgets whole_range "jeju")
  = raise (KeyError OrderDate).
Proof.
  by apply (dashboard_missing_required_column stable_sort_desc Re_engine
              (host_with (Some {| columns := [Channel; PaidAmount];
                                  rows := rows sample |}))
              (widgets whole_range "jeju") (None, None)
              {| columns := [Channel; PaidAmount]; rows := rows sample |}).
Defined.

(** X18.  On a view that has the channel and the paid amount but no
    margin column (a file that lacks one of the two price columns), the
    KPI section shows the average margin as 0, and tab 2 raises [KeyError]
    at its first statement, the channel table, before it shows anything. *)
Theorem tab2_without_margin
    (sort_values_desc : ∀ A : Type, (A → Z) → list A → list A)
    (df : DataFrame) :
  has_col df Channel = true → has_col df PaidAmount = true →
  has_col df Margin = false →
  kpi_section df
  = show (OMetrics (total_sales df) (total_orders df)
                   (avg_order_value df) (Some 0%Q)) ∧
  tab2 sort_values_desc df = raise (KeyError Margin).
Proof.
  intros Hc Hp Hm. unfold kpi_section, tab2, require_col, avg_margin.
  by rewrite Hc, Hp, Hm.
Qed.

Lemma tab2_without_margin_witness :
  tab2 stable_sort_desc sample_bare = raise (KeyError Margin).
Proof. by apply (tab2_without_margin stable_sort_desc sample_bare). Defined.

(** X29.  Line 52 runs before the data is loaded.  On a host without a
    secrets file the script raises there and shows nothing, whatever the
    environment and the data file hold; and a secrets file whose
    [naver_api] section lacks one of the two keys makes it raise
    [KeyError] there. *)
Theorem dashboard_without_api_keys
    (sort_values_desc : ∀ A : Type, (A → Z) → list A → list A)
    (E : Engine) (h : Host) (w : Widgets) :
  (h_secrets h = None →
   dashboard sort_values_desc E h w = raise SecretNotFoundError) ∧
  (∀ secrets naver_api,
     h_secrets h = Some secrets →
     secrets !! "naver_api"%string = Some naver_api →
     (naver_api !! "client_id"%string = None →
      dashboard sort_values_desc E h w = raise (SecretKeyError "client_id")) ∧
     (is_Some (naver_api !! "client_id"%string) →
      naver_api !! "client_secret"%string = None →
      dashboard sort_values_desc E h w
      = raise (SecretKeyError "client_secret"))).
Proof.
  unfold dashboard, before_tabs, read_api_keys, get_naver_api_secrets. split.
  - by intros ->.
  - intros secrets naver_api -> ->. split.
    + by intros ->.
    + intros [c_id ->] ->. done.
Qed.

Lemma dashboard_without_api_keys_witness :
  dashboard stable_sort_desc Re_engine
    {| h_secrets := None; h_env_files := [];
       h_environ := {[ "NAVER_CLIENT_ID"%string := "x"%string;
                       "NAVER_CLIENT_SECRET"%string := "y"%string ]};
       h_file := Some sample; h_today := mkDate 2024 4 1 |}
    (widgets whole_range EmptyString)
  = raise SecretNotFoundError.
Proof. by apply dashboard_without_api_keys. Defined.

(** ** New sellers and the churn chart *)

Lemma groupby_nonempty {K} `{EqDecision K} (leb : K → K → bool)
    (key : Row → option K) (rs : list Row) (g : K * list Row) :
  g ∈ groupby leb key rs → ∃ r, r ∈ snd g ∧ r ∈ rs ∧ key r = Some (fst g).
Proof.
  intros Hg. pose proof (groupby_group _ _ _ _ Hg) as Hsnd.
  assert (Hk : fst g ∈ remove_dups (omap key rs)).
  { rewrite <- groupby_keys. by apply (list_elem_of_fmap_2 fst). }
  apply elem_of_remove_dups, list_elem_of_omap in Hk as (r & Hr & Hkey).
  exists r. split; [|done]. rewrite Hsnd.
  apply list_elem_of_In, filter_In. rewrite <- list_elem_of_In.
  split; [done | by apply bool_decide_eq_true].
Qed.

Lemma series_min_elem {A} (leb : A → A → bool) (l : list A) (m : A) :
  series_min leb l = Some m → m ∈ l.
Proof.
  destruct l as [|x l]; [done|]. simpl. intros [= <-].
  revert x. induction l as [|y l IH]; intros x; simpl; [by left|].
  specialize (IH (if leb y x then y else x)).
  apply elem_of_cons in IH as [->|IH].
  - destruct (leb y x); [right; by left | by left].
  - right. by right.
Qed.

(** The first orders: one line per named seller, dated by one of the
    seller's own orders. *)
Lemma first_order_date_spec (df : DataFrame) :
  map fst (first_order_date df) = map fst (groupby String.leb seller (rows df)) ∧
  ∀ s t, (s, t) ∈ first_order_date df →
         ∃ r, r ∈ rows df ∧ seller r = Some s ∧ order_date r = t.
Proof.
  unfold first_order_date.
  assert (Hgen : ∀ gs, (∀ g, g ∈ gs → g ∈ groupby String.leb seller (rows df)) →
    map fst (omap (fun g => t ← series_min ts_leb (map order_date (snd g));
                            Some (fst g, t)) gs) = map fst gs ∧
    ∀ s t, (s, t) ∈ omap (fun g => t ← series_min ts_leb (map order_date (snd g));
                                   Some (fst g, t)) gs →
           ∃ r, r ∈ rows df ∧ seller r = Some s ∧ order_date r = t).
  { induction gs as [|g gs IH]; intros Hgs.
    - split; [done|]. by intros s t ?%elem_of_nil.
    - destruct IH as [IH1 IH2].
      { intros g' Hg'. apply Hgs. by right. }
      assert (Hg : g ∈ groupby String.leb seller (rows df))
        by (apply Hgs; by left).
      destruct (groupby_nonempty _ _ _ _ Hg) as (r0 & Hr0 & _ & _).
      cbn [omap list_omap].
      destruct (series_min ts_leb (map order_date (snd g))) as [m|] eqn:Hm.
      + cbn [mbind option_bind]. split; [simpl; by rewrite IH1|].
        intros s t [[= -> ->]|Hst]%elem_of_cons; [|by apply IH2].
        apply series_min_elem in Hm.
        change (map order_date ?l) with (order_date <$> l) in Hm.
        apply list_elem_of_fmap in Hm as (r & -> & Hr).
        rewrite (groupby_group _ _ _ _ Hg) in Hr.
        apply list_elem_of_In, filter_In in Hr as [Hr Hk].
        apply bool_decide_eq_true in Hk. exists r.
        by rewrite list_elem_of_In.
      + destruct (snd g); [by apply elem_of_nil in Hr0 | discriminate]. }
  apply Hgen. auto.
Qed.

Lemma nunique_groupby (df : DataFrame) :
  nunique (map seller (rows df))
  = length (groupby String.leb seller (rows df)).
Proof.
  unfold nunique.
  rewrite <- (length_map fst (groupby _ _ _)), groupby_keys. do 2 f_equal.
  induction (rows df) as [|r l IH]; [done|].
  cbn [map omap list_omap]. rewrite IH. by destruct (seller r).
Qed.

Lemma count_by_key_sum {K} `{EqDecision K} (l ks : list K) :
  NoDup ks → (∀ x, x ∈ l → x ∈ ks) →
  sum_Z (map (fun p => Z.of_nat (length
           (List.filter (fun q => bool_decide (q = p)) l))) ks)
  = Z.of_nat (length l).
Proof.
  intros Hnd. induction l as [|x l IH]; intros Hcover.
  - simpl. clear. induction ks; simpl; lia.
  - etrans.
    { apply (f_equal sum_Z).
      apply (map_ext _ (fun p => (if decide (x = p) then 1 else 0)
               + Z.of_nat (length
                   (List.filter (fun q => bool_decide (q = p)) l)))).
      intros p. simpl. destruct (decide (x = p)) as [->|Hne].
      - rewrite bool_decide_eq_true_2 by done. simpl. lia.
      - rewrite bool_decide_eq_false_2 by done. lia. }
    rewrite (sum_Z_pick x 1) by (done || apply Hcover; by left).
    rewrite IH by (intros y Hy; apply Hcover; by right).
    simpl length. lia.
Qed.

(** X19.  Every named seller of the view is a new seller of exactly one
    month: the new-seller counts add up to the number of distinct sellers.
    Each listed month is a month of the view with at least one new seller,
    and the months come in increasing order. *)
Theorem new_sellers_total (df : DataFrame) :
  sum_Z (map snd (new_sellers df))
  = Z.of_nat (nunique (map seller (rows df))) ∧
  (∀ p n, (p, n) ∈ new_sellers df → 0 < n ∧ p ∈ periods df) ∧
  StronglySorted period_lt (map fst (new_sellers df)).
Proof.
  unfold new_sellers. split; [|split].
  - rewrite map_map. simpl. rewrite count_by_key_sum.
    + unfold join_months. rewrite length_map, nunique_groupby.
      rewrite <- (length_map fst (first_order_date df)).
      by rewrite (proj1 (first_order_date_spec df)), length_map.
    + unfold sorted. rewrite merge_sort_Permutation. apply NoDup_remove_dups.
    + intros p Hp. unfold sorted.
      by rewrite merge_sort_Permutation, elem_of_remove_dups.
  - intros p n Hpn. change (map ?f ?l) with (f <$> l) in Hpn.
    apply list_elem_of_fmap in Hpn as (p' & [= <- ->] & Hp).
    unfold sorted in Hp.
    rewrite merge_sort_Permutation, elem_of_remove_dups in Hp.
    split.
    + apply list_elem_of_In in Hp.
      assert (Hin : In p (List.filter (fun q => bool_decide (q = p))
                                      (join_months df))).
      { apply filter_In. split; [done | by apply bool_decide_eq_true]. }
      destruct (List.filter _ _); [done | simpl; lia].
    + unfold join_months in Hp. change (map ?f ?l) with (f <$> l) in Hp.
      apply list_elem_of_fmap in Hp as ([s t] & -> & Hst).
      apply (proj2 (first_order_date_spec df)) in Hst as (r & Hr & _ & <-).
      apply elem_of_periods. eauto.
  - rewrite map_map. simpl. rewrite map_id.
    eapply StronglySorted_weaken;
      [|apply (sorted_strict period_leb), NoDup_remove_dups].
    + intros a b [H Hne]. apply period_leb_spec in H as [?| ->]; done.
    + intros a b. pose proof (period_leb_total a b) as H.
      by rewrite !Is_true_true in H.
    + intros a b c Hab Hbc. apply Is_true_true.
      eapply period_leb_trans; by apply Is_true_true.
Qed.

Lemma remove_dups_nil {A} `{EqDecision A} (l : list A) :
  remove_dups l = [] ↔ l = [].
Proof.
  split; [|by intros ->]. intros H. destruct l as [|x l]; [done|].
  assert (Hx : x ∈ remove_dups (x :: l)) by (apply elem_of_remove_dups; by left).
  rewrite H in Hx. by apply elem_of_nil in Hx.
Qed.

Lemma sorted_nil {A} (leb : A → A → bool) (l : list A) :
  sorted leb l = [] ↔ l = [].
Proof.
  unfold sorted. split; [|by intros ->]. intros H.
  apply Permutation_nil_r. rewrite <- H. by rewrite merge_sort_Permutation.
Qed.

Lemma join_months_length (df : DataFrame) :
  length (join_months df) = nunique (map seller (rows df)).
Proof.
  unfold join_months. rewrite length_map, nunique_groupby.
  rewrite <- (length_map fst (first_order_date df)).
  by rewrite (proj1 (first_order_date_spec df)), length_map.
Qed.

Lemma nunique_zero (df : DataFrame) :
  nunique (map seller (rows df)) = 0%nat ↔ ∀ r, r ∈ rows df → seller r = None.
Proof.
  unfold nunique. rewrite length_zero_iff_nil, remove_dups_nil.
  induction (rows df) as [|r l IH]; cbn [map omap list_omap].
  - split; [by intros _ r ?%elem_of_nil | done].
  - destruct (seller r) as [s|] eqn:Hs; simpl.
    + split; [discriminate|]. intros H.
      specialize (H r (list_elem_of_here _ _)). congruence.
    + rewrite IH. split.
      * intros H r' [->|Hr']%elem_of_cons; auto.
      * intros H r' Hr'. apply H. by right.
Qed.

Lemma new_sellers_nil (df : DataFrame) :
  new_sellers df = [] ↔ ∀ r, r ∈ rows df → seller r = None.
Proof.
  rewrite <- nunique_zero, <- join_months_length, length_zero_iff_nil.
  unfold new_sellers. split.
  - intros H. apply map_eq_nil in H. apply sorted_nil in H.
    exact (proj1 (remove_dups_nil _) H).
  - by intros ->.
Qed.

Lemma churn_data_pairs (df : DataFrame) :
  churn_data df
  = map (fun pc =>
           (snd pc,
            Z.of_nat (size (sellers_of df (fst pc) ∖ sellers_of df (snd pc)))
            * -1))
        (zip (periods df) (tail (periods df))).
Proof.
  unfold churn_data. case_bool_decide as Hlen.
  - by rewrite (consecutive_loop
      (fun prev curr =>
         (curr, Z.of_nat (size (sellers_of df prev ∖ sellers_of df curr)) * -1))).
  - destruct (periods df) as [|a [|b l]]; simpl in *; [done|done|lia].
Qed.

Lemma churn_data_keys (df : DataFrame) :
  map fst (churn_data df) = tail (periods df).
Proof.
  rewrite churn_data_pairs, map_map. simpl.
  destruct (periods df) as [|a ps]; [done|]. simpl. revert a.
  induction ps as [|b ps IH]; intros a; [done|]. simpl. f_equal. apply IH.
Qed.

Lemma churn_data_nil (df : DataFrame) :
  churn_data df = [] ↔ (length (periods df) < 2)%nat.
Proof.
  split.
  - intros H. pose proof (churn_data_keys df) as Hk. rewrite H in Hk.
    destruct (periods df) as [|a [|b l]]; simpl in *; [lia|lia|done].
  - intros H. rewrite churn_data_pairs.
    destruct (periods df) as [|a [|b l]]; simpl in *; [done|done|lia].
Qed.

Lemma named_or_not (l : list Row) :
  (∀ r, r ∈ l → seller r = None) ∨ (∃ r, r ∈ l ∧ is_Some (seller r)).
Proof.
  induction l as [|r l [IH|(r' & Hr' & Hs)]].
  - left. by intros r ?%elem_of_nil.
  - destruct (seller r) as [s|] eqn:Hs.
    + right. exists r. split; [by left | by rewrite Hs].
    + left. intros r' [->|Hr']%elem_of_cons; auto.
  - right. exists r'. split; [by right | done].
Qed.

(** X20.  The churn chart needs both series.  When the view has a named
    seller but fewer than two months, there is no churn column and the
    chart raises [KeyError] on it; when the view has two months or more but
    no named seller, there is no new-seller column and the chart raises
    [KeyError] on that one.  These are the only two ways in which either
    error arises. *)
Theorem churn_chart_key_errors (df : DataFrame) :
  (fig_churn df = KeyErrorChurn ↔
   (∃ r, r ∈ rows df ∧ is_Some (seller r)) ∧ (length (periods df) < 2)%nat) ∧
  (fig_churn df = KeyErrorNew ↔
   (∀ r, r ∈ rows df → seller r = None) ∧ (2 ≤ length (periods df))%nat).
Proof.
  pose proof (new_sellers_nil df) as Hnew.
  pose proof (churn_data_nil df) as Hchurn.
  assert (Hnamed : (∃ r, r ∈ rows df ∧ is_Some (seller r)) ↔
                   new_sellers df ≠ []).
  { rewrite Hnew. split.
    - intros (r & Hr & [s Hs]) Hnone. rewrite (Hnone r Hr) in Hs. done.
    - intros Hnot. destruct (named_or_not (rows df)); [contradiction | done]. }
  assert (Hmany : (2 ≤ length (periods df))%nat ↔ churn_data df ≠ []).
  { rewrite Hchurn. lia. }
  rewrite Hnamed, <- Hnew, <- Hchurn, Hmany.
  unfold fig_churn, analysis_df.
  destruct (new_sellers df) as [|n ns], (churn_data df) as [|c cs];
    split; split; try discriminate; try (intros [? ?]; congruence); done.
Qed.

(** A view of one month of the sample has sellers and no churn entry. *)
Example fig_churn_single_month :
  fig_churn (date_filter [mkDate 2024 1 1; mkDate 2024 1 31] sample)
  = KeyErrorChurn.
Proof. by vm_compute. Qed.

Lemma sorted_periods_strict (l : list Period) :
  StronglySorted period_lt (sorted period_leb (remove_dups l)).
Proof.
  eapply StronglySorted_weaken;
    [|apply (sorted_strict period_leb), NoDup_remove_dups].
  - intros a b [H Hne]. apply period_leb_spec in H as [?| ->]; done.
  - intros a b. pose proof (period_leb_total a b) as H.
    by rewrite !Is_true_true in H.
  - intros a b c Hab Hbc. apply Is_true_true.
    eapply period_leb_trans; by apply Is_true_true.
Qed.

Lemma periods_NoDup (df : DataFrame) : NoDup (periods df).
Proof.
  unfold periods, sorted. rewrite merge_sort_Permutation.
  apply NoDup_remove_dups.
Qed.

Lemma new_sellers_months (df : DataFrame) (p : Period) :
  p ∈ map fst (new_sellers df) → p ∈ periods df.
Proof.
  unfold new_sellers. rewrite map_map. simpl. rewrite map_id. unfold sorted.
  rewrite merge_sort_Permutation, elem_of_remove_dups. unfold join_months.
  change (map ?f ?l) with (f <$> l). intros ([s t] & -> & Hst)%list_elem_of_fmap.
  apply (proj2 (first_order_date_spec df)) in Hst as (r & Hr & _ & <-).
  apply elem_of_periods. eauto.
Qed.

Lemma new_sellers_sum (df : DataFrame) :
  sum_Z (map snd (new_sellers df)) = Z.of_nat (nunique (map seller (rows df))).
Proof.
  unfold new_sellers. rewrite map_map. simpl. rewrite count_by_key_sum.
  - by rewrite join_months_length.
  - unfold sorted. rewrite merge_sort_Permutation. apply NoDup_remove_dups.
  - intros p Hp. unfold sorted.
    by rewrite merge_sort_Permutation, elem_of_remove_dups.
Qed.

Lemma month_value_None (t : list (Period * Z)) (p : Period) :
  p ∉ map fst t → month_value t p = None.
Proof.
  unfold month_value. induction t as [|[k v] t IH]; simpl; [done|].
  intros Hp. apply not_elem_of_cons in Hp as [Hne Hp].
  rewrite bool_decide_eq_false_2 by congruence. auto.
Qed.

Lemma month_value_sum (t : list (Period * Z)) (ks : list Period) :
  NoDup (map fst t) → NoDup ks → (∀ k, k ∈ map fst t → k ∈ ks) →
  sum_Z (map (fun k => default 0 (month_value t k)) ks) = sum_Z (map snd t).
Proof.
  intros Ht Hks. induction t as [|[k0 v0] t IH]; intros Hcover.
  - simpl. clear. induction ks; simpl; lia.
  - simpl in Ht. apply NoDup_cons in Ht as [Hk0 Ht]. simpl.
    rewrite <- IH by (done || intros k Hk; apply Hcover; by right).
    rewrite <- (sum_Z_pick k0 v0) by (done || apply Hcover; by left).
    f_equal. apply map_ext. intros k. unfold month_value at 1. simpl.
    destruct (decide (k0 = k)) as [<-|Hne].
    + rewrite bool_decide_eq_true_2 by done. simpl.
      rewrite month_value_None by done. simpl. lia.
    + rewrite bool_decide_eq_false_2 by done. fold (month_value t k). lia.
Qed.

(** X21.  When the view has both new sellers and churn entries, the
    table behind the churn chart lists months of the view in increasing
    order, each once; merging loses nothing: the new-seller column still
    adds up to the number of distinct sellers and the churn column to the
    sum of the churn series. *)
Theorem merged_flow_table (df : DataFrame) (t : list (Period * Z * Z)) :
  analysis_df df = BothSeries t →
  StronglySorted period_lt (map (fun e => fst (fst e)) t) ∧
  (∀ p, p ∈ map (fun e => fst (fst e)) t → p ∈ periods df) ∧
  sum_Z (map (fun e => snd (fst e)) t)
  = Z.of_nat (nunique (map seller (rows df))) ∧
  sum_Z (map snd t) = sum_Z (map snd (churn_data df)).
Proof.
  intros Ha.
  assert (Ht : t = merge_outer (new_sellers df) (churn_data df)).
  { unfold analysis_df in Ha.
    destruct (new_sellers df), (churn_data df); congruence. }
  subst t. clear Ha. unfold merge_outer. rewrite !map_map. simpl.
  rewrite map_id.
  set (ks := sorted period_leb
               (remove_dups (map fst (new_sellers df)
                             ++ map fst (churn_data df)))).
  assert (Hks : NoDup ks).
  { unfold ks, sorted. rewrite merge_sort_Permutation.
    apply NoDup_remove_dups. }
  assert (Hin : ∀ k, k ∈ ks ↔ k ∈ map fst (new_sellers df)
                              ∨ k ∈ map fst (churn_data df)).
  { intros k. unfold ks, sorted.
    by rewrite merge_sort_Permutation, elem_of_remove_dups, elem_of_app. }
  split; [apply sorted_periods_strict|]. split; [|split].
  - intros p [Hp|Hp]%Hin; [by apply new_sellers_months|].
    rewrite churn_data_keys in Hp.
    destruct (periods df); [done | by right].
  - rewrite month_value_sum; [apply new_sellers_sum| |done|].
    + unfold new_sellers. rewrite map_map. simpl. rewrite map_id.
      unfold sorted. rewrite merge_sort_Permutation. apply NoDup_remove_dups.
    + intros k Hk. apply Hin. by left.
  - rewrite month_value_sum; [done| |done|].
    + rewrite churn_data_keys. pose proof (periods_NoDup df) as Hp.
      destruct (periods df); [done|]. by apply NoDup_cons in Hp as [_ ?].
    + intros k Hk. apply Hin. by right.
Qed.

Lemma merged_flow_table_witness :
  sum_Z (map (fun e => snd (fst e))
             [(mkPeriod 2024 1, 2, 0); (mkPeriod 2024 2, 1, -1);
              (mkPeriod 2024 3, 0, -1)])
  = Z.of_nat (nunique (map seller (rows sample))).
Proof.
  apply (merged_flow_table sample). by vm_compute.
Defined.




Lemma new_sellers_total_witness :
  0 < 2 ∧ mkPeriod 2024 1 ∈ periods sample.
Proof.
  apply (new_sellers_total sample). vm_compute. in_list.
Defined.

Lemma channel_perf_total_witness :
  sum_Z (map (fun c => snd (fst c)) (channel_perf sample)) = total_sales sample.
Proof. apply (channel_perf_total sample). by vm_compute. Defined.

(** ** The seller metrics and the default selection of sellers *)

Lemma nunique_mono (l1 l2 : list cell) :
  (∀ x, x ∈ l1 → x ∈ l2) → (nunique l1 ≤ nunique l2)%nat.
Proof.
  intros Hsub. unfold nunique. apply submseteq_length.
  apply NoDup_submseteq; [apply NoDup_remove_dups|].
  intros s. rewrite !elem_of_remove_dups, !list_elem_of_omap.
  intros (x & Hx & Hs). eauto.
Qed.

Lemma groupby_months (df : DataFrame) :
  map fst (groupby period_leb (fun r => Some (order_month r)) (rows df))
  = periods df.
Proof.
  unfold groupby, periods. rewrite map_map. simpl.
  by rewrite map_id, omap_Some_map.
Qed.

(** X23.  The card "sellers active in the current month" counts the
    distinct named sellers of the latest month of the view; it is never
    more than the card of all sellers, and it is 0 on a view without
    rows. *)
Theorem current_active_spec (df : DataFrame) :
  (current_active df ≤ nunique (map seller (rows df)))%nat ∧
  (rows df = [] → current_active df = 0%nat) ∧
  (∀ earlier latest,
     periods df = earlier ++ [latest] →
     current_active df
     = nunique (map seller
         (List.filter (fun r => bool_decide (order_month r = latest))
                      (rows df)))).
Proof.
  assert (Hgroup : ∀ g,
    last (groupby period_leb (fun r => Some (order_month r)) (rows df)) = Some g →
    snd g = List.filter (fun r => bool_decide (order_month r = fst g)) (rows df)).
  { intros g Hg. apply last_Some in Hg as [l' Hg].
    assert (Hin : g ∈ groupby period_leb (fun r => Some (order_month r)) (rows df)).
    { rewrite Hg. apply elem_of_app. right. by left. }
    rewrite (groupby_group _ _ _ _ Hin). clear.
    induction (rows df) as [|r l IH]; simpl; [done|]. rewrite IH.
    destruct (decide (order_month r = fst g)) as [He|Hne].
    - by rewrite !bool_decide_eq_true_2 by congruence.
    - by rewrite !bool_decide_eq_false_2 by congruence. }
  unfold current_active. split; [|split].
  - destruct (last _) as [g|] eqn:Hg; [|lia].
    apply nunique_mono. rewrite (Hgroup g eq_refl).
    intros x. change (map ?f ?l) with (f <$> l). rewrite !list_elem_of_fmap.
    intros (r & -> & [Hr _]%list_elem_of_In%filter_In). exists r.
    split; [done | by apply list_elem_of_In].
  - by intros ->.
  - intros earlier latest Hp. rewrite <- groupby_months in Hp.
    assert (Hl : fst <$> last (groupby period_leb
                   (fun r => Some (order_month r)) (rows df)) = Some latest).
    { rewrite <- fmap_last.
      change (fst <$> ?l) with (map fst l). rewrite Hp. apply last_snoc. }
    destruct (last _) as [g|] eqn:Hg; [|done].
    injection Hl as Hl. by rewrite (Hgroup g eq_refl), Hl.
Qed.

Lemma current_active_spec_witness :
  current_active sample
  = nunique (map seller
      (List.filter (fun r => bool_decide (order_month r = mkPeriod 2024 3))
                   (rows sample))).
Proof.
  apply (proj2 (proj2 (current_active_spec sample))
           [mkPeriod 2024 1; mkPeriod 2024 2]).
  by vm_compute.
Defined.

Lemma seller_revenue_names (df : DataFrame) :
  map fst (seller_revenue df) ≡ₚ remove_dups (omap seller (rows df)).
Proof.
  unfold seller_revenue. rewrite map_map. simpl.
  change (map (fun g => fst g) ?l) with (map fst l). apply groupby_keys.
Qed.

Lemma NoDup_fst_inj {A B} (l : list (A * B)) (a : A) (b1 b2 : B) :
  NoDup (map fst l) → (a, b1) ∈ l → (a, b2) ∈ l → b1 = b2.
Proof.
  induction l as [|[a' b'] l IH]; simpl; [by intros _ ?%elem_of_nil|].
  intros [Hnot Hnd]%NoDup_cons H1 H2.
  apply elem_of_cons in H1 as [E1|H1]; apply elem_of_cons in H2 as [E2|H2].
  - congruence.
  - injection E1 as -> _. destruct Hnot.
    by apply (list_elem_of_fmap_2 fst _ (a', b2)).
  - injection E2 as -> _. destruct Hnot.
    by apply (list_elem_of_fmap_2 fst _ (a', b1)).
  - by apply IH.
Qed.

(** X24.  The default of the seller selection holds the five sellers of
    highest revenue, or all of them when there are fewer: no seller twice,
    each one among the options the widget offers, and no seller left out
    of it has a higher revenue in the table of line 420 than one that is
    listed. *)
Theorem top_sellers_spec (df : DataFrame) :
  length (top_sellers df)
  = (5 `min` nunique (map seller (rows df)))%nat ∧
  NoDup (top_sellers df) ∧
  (∀ s, s ∈ top_sellers df → Some s ∈ seller_options df) ∧
  (∀ s t v w, (s, v) ∈ seller_revenue df → (t, w) ∈ seller_revenue df →
              s ∈ top_sellers df → t ∉ top_sellers df → w <= v).
Proof.
  unfold top_sellers, nlargest.
  destruct (stable_sort_desc_contract _ (@snd string Z) (seller_revenue df))
    as [Hperm _].
  pose proof (sort_contract_strongly _ stable_sort_desc_contract
                _ (@snd string Z) (seller_revenue df)) as Hstrong.
  set (ranked := stable_sort_desc (string * Z) snd (seller_revenue df)) in *.
  assert (Hnames : map fst ranked ≡ₚ remove_dups (omap seller (rows df))).
  { change (map fst ranked) with (fst <$> ranked). rewrite Hperm.
    apply seller_revenue_names. }
  split; [|split; [|split]].
  - rewrite length_map, length_take, <- (length_map fst ranked), Hnames.
    unfold nunique. do 3 f_equal. clear.
    induction (rows df) as [|r l IH]; [done|].
    cbn [map omap list_omap]. rewrite IH. by destruct (seller r).
  - change (map fst ?l) with (fst <$> l). rewrite fmap_take.
    eapply sublist_NoDup; [|apply sublist_take].
    change (fst <$> ranked) with (map fst ranked). rewrite Hnames.
    apply NoDup_remove_dups.
  - intros s Hs. change (map fst ?l) with (fst <$> l) in Hs.
    rewrite fmap_take in Hs. apply (subseteq_take 5) in Hs.
    change (fst <$> ranked) with (map fst ranked) in Hs.
    rewrite Hnames, elem_of_remove_dups, list_elem_of_omap in Hs.
    destruct Hs as (r & Hr & Hs). unfold seller_options.
    apply elem_of_unique. rewrite <- Hs.
    by apply (list_elem_of_fmap_2 seller).
  - intros s t v w Hs Ht Hin Hout.
    assert (Hnd : NoDup (map fst ranked))
      by (rewrite Hnames; apply NoDup_remove_dups).
    change (map fst ?l) with (fst <$> l) in Hin, Hout.
    apply list_elem_of_fmap in Hin as ([s' v'] & Hs' & Hin).
    simpl in Hs'. subst s'.
    assert (v' = v) as ->.
    { apply (NoDup_fst_inj ranked s); [done| |by rewrite Hperm].
      by apply (subseteq_take 5). }
    assert (Hdrop : (t, w) ∈ drop 5 ranked).
    { rewrite <- Hperm, <- (take_drop 5 ranked) in Ht.
      apply elem_of_app in Ht as [Ht|Ht]; [|done].
      destruct Hout. by apply (list_elem_of_fmap_2 fst _ (t, w)). }
    rewrite <- (take_drop 5 ranked) in Hstrong.
    apply (StronglySorted_app_1_elem_of _ _ _ _ _ Hstrong Hin Hdrop).
Qed.

Lemma top_sellers_spec_witness :
  Some "B"%string ∈ seller_options sample.
Proof. apply (top_sellers_spec sample). vm_compute. in_list. Defined.

(** ** The API keys *)

Lemma load_first_env_keeps (env_candidates : list (option (gmap string string)))
    (environ : gmap string string) (k v : string) :
  environ !! k = Some v → load_first_env env_candidates environ !! k = Some v.
Proof.
  intros Hk. induction env_candidates as [|[file|] rest IH]; simpl; [done| |done].
  unfold load_dotenv. by apply lookup_union_Some_l.
Qed.

Lemma truthy_opt_spec (x : option string) :
  truthy_opt x = true ↔ ∃ s, x = Some s ∧ s ≠ EmptyString.
Proof.
  destruct x as [[|c s]|]; simpl.
  - split; [discriminate | by intros (? & [= <-] & ?)].
  - split; [eauto | done].
  - split; [discriminate | by intros (? & ? & ?)].
Qed.

(** X25.  The function returns a whole pair or nothing, never one key
    without the other; and a pair that comes from the environment or a
    [.env] file has two non-empty keys. *)
Theorem secrets_pair_or_nothing
    (secrets : gmap string (gmap string string))
    (env_candidates : list (option (gmap string string)))
    (environ : gmap string string) (c_id c_secret : option string) :
  get_naver_api_secrets secrets env_candidates environ = Keys c_id c_secret →
  (c_id = None ∧ c_secret = None) ∨
  (∃ i s, c_id = Some i ∧ c_secret = Some s ∧
          (secrets !! "naver_api"%string = None →
           i ≠ EmptyString ∧ s ≠ EmptyString)).
Proof.
  unfold get_naver_api_secrets.
  destruct (secrets !! "naver_api"%string) as [section|].
  - destruct (section !! "client_id"%string) as [i|]; [|discriminate].
    destruct (section !! "client_secret"%string) as [s|]; [|discriminate].
    intros [= <- <-]. right. exists i, s. by repeat split.
  - destruct (truthy_opt _ && truthy_opt _) eqn:E.
    + apply andb_true_iff in E as [Hi Hs].
      apply truthy_opt_spec in Hi as (i & Hi & ?).
      apply truthy_opt_spec in Hs as (s & Hs & ?).
      intros [= <- <-]. right. exists i, s. by rewrite Hi, Hs.
    + intros [= <- <-]. by left.
Qed.

Lemma secrets_pair_or_nothing_witness :
  (Some "x"%string = None ∧ Some "b"%string = None) ∨
  (∃ i s, Some "x"%string = Some i ∧ Some "b"%string = Some s ∧
          ((∅ : gmap string (gmap string string)) !! "naver_api"%string = None →
           i ≠ EmptyString ∧ s ≠ EmptyString)).
Proof.
  apply (secrets_pair_or_nothing ∅
           [None; Some {[ "NAVER_CLIENT_ID"%string := "a"%string;
                          "NAVER_CLIENT_SECRET"%string := "b"%string ]}]
           {[ "NAVER_CLIENT_ID"%string := "x"%string ]}).
  by vm_compute.
Defined.

(** X26.  With a secrets file made of sections, none of them
    [naver_api], keys that the process environment already holds are the
    ones line 52 gets: no [.env] file can replace them, whichever candidate
    paths exist. *)
Theorem secrets_environment_first (h : Host)
    (secrets : gmap string (gmap string string)) (i s : string) :
  h_secrets h = Some secrets →
  secrets !! "naver_api"%string = None →
  h_environ h !! "NAVER_CLIENT_ID"%string = Some i →
  h_environ h !! "NAVER_CLIENT_SECRET"%string = Some s →
  i ≠ EmptyString → s ≠ EmptyString →
  get_naver_api_secrets secrets (h_env_files h) (h_environ h)
  = Keys (Some i) (Some s) ∧
  read_api_keys h = mret (Some i, Some s).
Proof.
  intros Hfile Hsec Hi Hs Hin Hsn.
  assert (Hget : get_naver_api_secrets secrets (h_env_files h) (h_environ h)
                 = Keys (Some i) (Some s)).
  { unfold get_naver_api_secrets. rewrite Hsec.
    rewrite (load_first_env_keeps _ _ _ _ Hi), (load_first_env_keeps _ _ _ _ Hs).
    destruct i, s; done. }
  split; [done|]. unfold read_api_keys. by rewrite Hfile, Hget.
Qed.

Lemma secrets_environment_first_witness :
  read_api_keys
    {| h_secrets := Some {[ "database"%string := ∅ ]};
       h_env_files := [Some {[ "NAVER_CLIENT_ID"%string := "a"%string;
                               "NAVER_CLIENT_SECRET"%string := "b"%string ]}];
       h_environ := {[ "NAVER_CLIENT_ID"%string := "x"%string;
                       "NAVER_CLIENT_SECRET"%string := "y"%string ]};
       h_file := None; h_today := mkDate 2024 4 1 |}
  = mret (Some "x"%string, Some "y"%string).
Proof.
  eapply secrets_environment_first; by vm_compute.
Defined.
